(** * pdfresizer: size-targeted PDF compression, checked against its code

    A shallow embedding of [pdf_compressor.py] (class [PDFCompressor]) and
    of the advisory analyzer of [pdf_utils.py] (class [PDFAnalyzer]).

    Conventions of the embedding.
    - Python [float]s are exact rationals ([Q]); Python [int]s are [Z].
      Rounding of float arithmetic and the special values inf/nan are
      outside the model.
    - The file system is a finite map from path strings to byte contents.
    - PyMuPDF ([fitz]) and Pillow ([PIL.Image]) are capability interfaces
      ([PdfEngine], [ImageCodec]); every call that can raise returns
      [exn + _].
    - Methods that touch the file system or print run in the monad [M],
      a state monad over [world] whose exceptions keep the state they
      were raised in.  Exceptions are those caught by [except Exception].
    - Of the printed lines only the warnings and errors are kept; the
      progress report of [compress_pdf] is not part of the model. *)

From Stdlib Require Import QArith Qround.
From Stdlib.Strings Require Import Byte.
From stdpp Require Import gmap strings list fin_maps pretty.

Local Open Scope Z_scope.

(** ** Python values and exceptions *)

Abbreviation bytes := (list byte).

(** [len(b)] of a byte string. *)
Definition len (b : bytes) : Z := Z.of_nat (length b).

(** An exception: its class name and its [str(e)]. *)
Inductive exn : Type :=
| Raise (cls : string) (msg : string).

Definition str (e : exn) : string :=
  match e with Raise _ msg => msg end.

(** [int(x)] of a float: truncation toward zero. *)
Definition py_int (x : Q) : Z := Z.quot (Qnum x) (Z.pos (Qden x)).

(** Values stored in the analysis dictionary. *)
Inductive pyval : Type :=
| VBool (b : bool)
| VInt (n : Z)
| VFloat (x : Q)
| VStr (s : string)
| VList (l : list Z).

(** Truth value of [if v:]. *)
Definition truthy (v : pyval) : bool :=
  match v with
  | VBool b => b
  | VInt n => negb (n =? 0)
  | VFloat x => negb (Qeq_bool x 0)
  | VStr s => negb (String.eqb s "")
  | VList l => match l with [] => false | _ => true end
  end.

(** [v > n] for an int literal [n]; strings and lists raise [TypeError]. *)
Definition py_gt (v : pyval) (n : Z) : exn + bool :=
  match v with
  | VBool b => inr (n <? (if b then 1 else 0))
  | VInt m => inr (n <? m)
  | VFloat x => inr (negb (Qle_bool x (inject_Z n)))
  | VStr _ | VList _ =>
      inl (Raise "TypeError" "'>' not supported between instances")
  end.

(** ** The document model of the PDF engine *)

(** What [doc.extract_image(xref)] returns: a dictionary whose keys
    ["image"], ["width"] and ["height"] may be absent. *)
Record base_image : Type := {
  bi_image : option bytes;
  bi_width : option Z;
  bi_height : option Z
}.

(** A page: [page.rect.width], [page.rect.height], the xrefs listed by
    [page.get_images()] and the text/vector content taken as a unit. *)
Record page : Type := {
  rect_width : Q;
  rect_height : Q;
  get_images : list Z;
  page_contents : bytes
}.

Record document : Type := {
  doc_pages : list page;
  doc_xrefs : gmap Z base_image
}.

Definition page_count (doc : document) : Z := Z.of_nat (length (doc_pages doc)).

Definition extract_image (doc : document) (xref : Z) : exn + base_image :=
  match doc_xrefs doc !! xref with
  | Some bi => inr bi
  | None => inl (Raise "ValueError" "bad xref")
  end.

(** A rectangle [fitz.Rect(x0, y0, x1, y1)]. *)
Record rect : Type := Rect { x0 : Q; y0 : Q; x1 : Q; y1 : Q }.

(** What is put on a page of the document being built:
    [insert_image(rect, stream=...)] or
    [show_pdf_page(rect, pdf_document, page_num)]. *)
Inductive page_item : Type :=
| InsertedImage (r : rect) (stream : bytes)
| ShownPdfPage (r : rect) (page_num : nat) (src : page).

(** A page made by [new_pdf.new_page(width=..., height=...)]. *)
Record new_page : Type := {
  np_width : Q;
  np_height : Q;
  np_items : list page_item
}.

(** [new_page.rect]. *)
Definition np_rect (w h : Q) : rect := Rect 0 0 w h.

(** Result of [new_pdf.save(path, garbage=4, deflate=True, clean=True)]:
    the serialized bytes, or an exception that may leave a partly written
    file behind. *)
Inductive save_result : Type :=
| SaveOk (out : bytes)
| SaveFailed (e : exn) (debris : option bytes).

(** ** Capability interfaces *)

(** Pillow. *)
Class ImageCodec : Type := {
  pil_image : Type;
  Image_open : bytes → exn + pil_image;
  image_mode : pil_image → string;
  image_width : pil_image → Z;
  image_height : pil_image → Z;
  (** [Image.new('RGB', image.size, (255, 255, 255))] followed by
      [paste(image, mask=...)]; the flag says whether the alpha band is
      the mask. *)
  paste_on_white : pil_image → bool → exn + pil_image;
  image_convert_RGB : pil_image → exn + pil_image;
  (** [image.resize(new_size, Image.Resampling.LANCZOS)]. *)
  image_resize : pil_image → Z * Z → exn + pil_image;
  (** [image.save(buffer, format='JPEG', quality=q, optimize=True)]. *)
  image_save_jpeg : pil_image → Z → exn + bytes
}.

(** PyMuPDF. *)
Class PdfEngine : Type := {
  pixmap : Type;
  (** Parsing the bytes of a file: [fitz.open(path)]. *)
  fitz_parse : bytes → exn + document;
  (** [page.get_pixmap(matrix=fitz.Matrix(zx, zy))]. *)
  get_pixmap : page → Q → Q → exn + pixmap;
  (** [pix.tobytes("ppm")]. *)
  pixmap_tobytes_ppm : pixmap → exn + bytes;
  pdf_save : list new_page → save_result
}.

(** ** The world and the monad of effects *)

(** Invocations of the two rebuild methods, in order of call. *)
Inductive call : Type :=
| CallImages (input_path output_path : string) (quality : Z) (scale : Q)
| CallRendering (input_path output_path : string) (dpi : Z) (scale : Q).

Record world : Type := World {
  files : gmap string bytes;
  (** The warning and error lines printed so far. *)
  printed : list string;
  (** Instrumentation: the rebuild invocations made so far. *)
  calls : list call
}.

Definition M (A : Type) : Type := world → (exn + A) * world.

Definition ret {A} (a : A) : M A := λ w, (inr a, w).

Definition raise {A} (e : exn) : M A := λ w, (inl e, w).

Definition bind {A B} (c : M A) (k : A → M B) : M B :=
  λ w, match c w with
       | (inr a, w') => k a w'
       | (inl e, w') => (inl e, w')
       end.

Notation "x <- c ;; k" := (bind c (λ x, k))
  (at level 100, c at next level, right associativity).
Notation "c ;;; k" := (bind c (λ _, k))
  (at level 100, right associativity).

(** [try: body except Exception as e: handler(e)]. *)
Definition try_except {A} (body : M A) (handler : exn → M A) : M A :=
  λ w, match body w with
       | (inr a, w') => (inr a, w')
       | (inl e, w') => handler e w'
       end.

(** Lifting a call that may raise but has no effect. *)
Definition lift {A} (r : exn + A) : M A :=
  match r with inr a => ret a | inl e => raise e end.

Definition print (line : string) : M unit :=
  λ w, (inr tt, World (files w) (printed w ++ [line]) (calls w)).

Definition log_call (c : call) : M unit :=
  λ w, (inr tt, World (files w) (printed w) (calls w ++ [c])).

(** *** File-system primitives *)

Definition set_files (fs : gmap string bytes) (w : world) : world :=
  World fs (printed w) (calls w).

(** [os.path.exists(path)]. *)
Definition os_path_exists (path : string) : M bool :=
  λ w, (inr (bool_decide (is_Some (files w !! path))), w).

(** [os.path.getsize(path)]. *)
Definition os_path_getsize (path : string) : M Z :=
  λ w, match files w !! path with
       | Some b => (inr (len b), w)
       | None => (inl (Raise "FileNotFoundError" path), w)
       end.

(** [os.remove(path)]. *)
Definition os_remove (path : string) : M unit :=
  λ w, match files w !! path with
       | Some _ => (inr tt, set_files (delete path (files w)) w)
       | None => (inl (Raise "FileNotFoundError" path), w)
       end.

(** Writing a whole file. *)
Definition write_file (path : string) (b : bytes) : M unit :=
  λ w, (inr tt, set_files (<[path := b]> (files w)) w).

(** [shutil.copy2(src, dst)]: refuses to copy a file onto itself. *)
Definition shutil_copy2 (src dst : string) : M unit :=
  λ w, match files w !! src with
       | None => (inl (Raise "FileNotFoundError" src), w)
       | Some b =>
           if bool_decide (src = dst)
           then (inl (Raise "SameFileError" src), w)
           else (inr tt, set_files (<[dst := b]> (files w)) w)
       end.

(** [shutil.move(src, dst)]: a rename that replaces [dst]. *)
Definition shutil_move (src dst : string) : M unit :=
  λ w, match files w !! src with
       | None => (inl (Raise "FileNotFoundError" src), w)
       | Some b => (inr tt, set_files (<[dst := b]> (delete src (files w))) w)
       end.

(** *** Calls that may raise but have no effect *)

Definition ebind {A B} (r : exn + A) (k : A → exn + B) : exn + B :=
  match r with inr a => k a | inl e => inl e end.

Notation "x <~ r ;; k" := (ebind r (λ x, k))
  (at level 100, r at next level, right associativity).

(** * pdf_compressor.py: class PDFCompressor *)

(** The fields of [self]. *)
Record PDFCompressor : Type := {
  target_size_bytes : Q;
  quality_levels : list Z;
  scale_factors : list Q
}.

(** [__init__(self, target_size_mb)]. *)
Definition PDFCompressor_init (target_size_mb : Q) : PDFCompressor :=
  {| target_size_bytes := (target_size_mb * 1024 * 1024)%Q;
     quality_levels := [95; 85; 75; 65; 50; 40; 30; 20];
     scale_factors := [1; 9 # 10; 8 # 10; 7 # 10; 6 # 10; 5 # 10; 4 # 10]%Q |}.

(** [dpi_levels], local to [compress_pdf]. *)
Definition dpi_levels : list Z := [150; 120; 100; 80; 60; 50].

(** [best_size]: [float('inf')] or a measured size. *)
Inductive py_size : Type :=
| Infinity
| Finite (n : Z).

(** The two locals [best_result] and [best_size] of [compress_pdf]. *)
Record search : Type := {
  best_result : option string;
  best_size : py_size
}.

(** [current_size < best_size or best_result is None]. *)
Definition improves (current_size : Z) (st : search) : bool :=
  match best_size st with Infinity => true | Finite n => current_size <? n end
  || match best_result st with None => true | Some _ => false end.

(** [if best_result:] on an optional string. *)
Definition is_set (r : option string) : bool :=
  match r with
  | None => false
  | Some s => negb (String.eqb s "")
  end.

(** [x < y] and [x <= y] on floats. *)
Definition Qlt_bool (x y : Q) : bool := negb (Qle_bool y x).

Section Compressor.
Context {codec : ImageCodec} {engine : PdfEngine}.

(** [str(input_file.parent / f"{input_file.stem}_compressed{input_file.suffix}")]:
    pathlib's computation of the default output path is left open. *)
Variable default_output_path : string → string.

(** [get_file_size(self, file_path)]. *)
Definition get_file_size (file_path : string) : M Z :=
  os_path_getsize file_path.

(** [compress_image(self, image_data, quality, scale)]. *)
Definition compress_image (image_data : bytes) (quality : Z) (scale : Q)
  : M bytes :=
  try_except
    (image <- lift (Image_open image_data) ;;
     image <- lift
       (if bool_decide (image_mode image = "RGBA")
           || bool_decide (image_mode image = "P")
        then paste_on_white image (bool_decide (image_mode image = "RGBA"))
        else if negb (bool_decide (image_mode image = "RGB"))
        then image_convert_RGB image
        else inr image) ;;
     image <- lift
       (if Qlt_bool scale 1
        then image_resize image
               (py_int (inject_Z (image_width image) * scale),
                py_int (inject_Z (image_height image) * scale))
        else inr image) ;;
     lift (image_save_jpeg image quality))
    (λ e, print ("Warning: Could not compress image: " +:+ str e) ;;;
          ret image_data).

(** The encoding of a rendered pixmap, common to both rebuilds:
    [pix.tobytes("ppm")], [Image.open], conversion to RGB when needed,
    and [save(..., format='JPEG', quality=quality, optimize=True)]. *)
Definition pixmap_to_jpeg (pix : pixmap) (quality : Z) : exn + bytes :=
  img_data <~ pixmap_tobytes_ppm pix ;;
  pil_image <~ Image_open img_data ;;
  pil_image <~ (if negb (bool_decide (image_mode pil_image = "RGB"))
                then image_convert_RGB pil_image
                else inr pil_image) ;;
  image_save_jpeg pil_image quality.

(** [fitz.open(input_path)]. *)
Definition fitz_open (path : string) : M document :=
  λ w, match files w !! path with
       | Some b => lift (fitz_parse b) w
       | None => (inl (Raise "FileNotFoundError" path), w)
       end.

(** [new_pdf.save(output_path, garbage=4, deflate=True, clean=True)]. *)
Definition new_pdf_save (new_pdf : list new_page) (path : string) : M unit :=
  match pdf_save new_pdf with
  | SaveOk out => write_file path out
  | SaveFailed e None => raise e
  | SaveFailed e (Some d) => write_file path d ;;; raise e
  end.

(** The page loop of [compress_pdf_images]; [page_num] is the index of
    the first page of [pages] in the source document. *)
Fixpoint images_pages (pages : list page) (page_num : nat)
    (quality : Z) (scale : Q) : exn + list new_page :=
  match pages with
  | [] => inr []
  | page :: rest =>
      new_page <~
        (let image_list := get_images page in
         let width := (rect_width page * scale)%Q in
         let height := (rect_height page * scale)%Q in
         match image_list with
         | _ :: _ =>
             pix <~ get_pixmap page scale scale ;;
             img_data <~ pixmap_to_jpeg pix quality ;;
             inr {| np_width := width; np_height := height;
                    np_items := [InsertedImage (Rect 0 0 width height)
                                   img_data] |}
         | [] =>
             inr {| np_width := width; np_height := height;
                    np_items := [ShownPdfPage (np_rect width height)
                                   page_num page] |}
         end) ;;
      new_pdf <~ images_pages rest (S page_num) quality scale ;;
      inr (new_page :: new_pdf)
  end.

(** [compress_pdf_images(self, input_path, output_path, quality, scale)]. *)
Definition compress_pdf_images (input_path output_path : string)
    (quality : Z) (scale : Q) : M bool :=
  log_call (CallImages input_path output_path quality scale) ;;;
  try_except
    (pdf_document <- fitz_open input_path ;;
     new_pdf <- lift (images_pages (doc_pages pdf_document) 0 quality scale) ;;
     new_pdf_save new_pdf output_path ;;;
     ret true)
    (λ e, print ("Error compressing PDF: " +:+ str e) ;;; ret false).

(** The page loop of [compress_pdf_rendering]. *)
Fixpoint rendering_pages (pages : list page) (dpi : Z) (scale : Q)
  : exn + list new_page :=
  match pages with
  | [] => inr []
  | page :: rest =>
      new_page <~
        (let zoom := (inject_Z dpi / 72)%Q in
         let width := (rect_width page * scale)%Q in
         let height := (rect_height page * scale)%Q in
         pix <~ get_pixmap page (zoom * scale)%Q (zoom * scale)%Q ;;
         img_data <~ pixmap_to_jpeg pix 85 ;;
         inr {| np_width := width; np_height := height;
                np_items := [InsertedImage (Rect 0 0 width height)
                               img_data] |}) ;;
      new_pdf <~ rendering_pages rest dpi scale ;;
      inr (new_page :: new_pdf)
  end.

(** [compress_pdf_rendering(self, input_path, output_path, dpi, scale)]. *)
Definition compress_pdf_rendering (input_path output_path : string)
    (dpi : Z) (scale : Q) : M bool :=
  log_call (CallRendering input_path output_path dpi scale) ;;;
  try_except
    (pdf_document <- fitz_open input_path ;;
     new_pdf <- lift (rendering_pages (doc_pages pdf_document) dpi scale) ;;
     new_pdf_save new_pdf output_path ;;;
     ret true)
    (λ e, print ("Error in PDF rendering compression: " +:+ str e) ;;;
          ret false).

(** The inner [for scale in self.scale_factors] loop shared by the two
    strategies of [compress_pdf]: [attempt scale] is the call of the
    rebuild method on [temp_output].  The result is the pair of locals
    after the loop, whether it ended by [break] or by exhaustion. *)
Fixpoint search_scales (target : Q) (attempt : Q → M bool)
    (temp_output : string) (scales : list Q) (st : search) : M search :=
  match scales with
  | [] => ret st
  | scale :: rest =>
      ok <- attempt scale ;;
      hit <- (if ok : bool then
                current_size <- get_file_size temp_output ;;
                if Qle_bool (inject_Z current_size) target then
                  ret (Some (if improves current_size st
                             then {| best_result := Some temp_output;
                                     best_size := Finite current_size |}
                             else st))
                else ret None
              else ret None) ;;
      match hit with
      | Some st' => ret st'
      | None =>
          there <- os_path_exists temp_output ;;
          (if there && negb (bool_decide (Some temp_output = best_result st))
           then os_remove temp_output
           else ret tt) ;;;
          search_scales target attempt temp_output rest st
      end
  end.

(** The outer loop ([for quality in self.quality_levels] or
    [for dpi in dpi_levels]) with its [if best_result: break]. *)
Fixpoint search_levels (target : Q) (attempt : Z → Q → M bool)
    (temp_output : string) (scales : list Q) (levels : list Z)
    (st : search) : M search :=
  match levels with
  | [] => ret st
  | level :: rest =>
      st <- search_scales target (attempt level) temp_output scales st ;;
      if is_set (best_result st) then ret st
      else search_levels target attempt temp_output scales rest st
  end.

(** The block of [compress_pdf] under [# Finalize the result]. *)
Definition finalize_result (original_size : Z) (output_path : string)
    (st : search) : M string :=
  match best_result st with
  | Some result =>
      if is_set (best_result st) then
        (if negb (bool_decide (result = output_path))
         then shutil_move result output_path
         else ret tt) ;;;
        final_size <- get_file_size output_path ;;
        (if original_size =? 0
         then raise (Raise "ZeroDivisionError" "division by zero")
         else ret tt) ;;;
        ret output_path
      else
        raise (Raise "Exception"
          "Could not compress PDF to target size. Try a larger target size.")
  | None =>
      raise (Raise "Exception"
        "Could not compress PDF to target size. Try a larger target size.")
  end.

(** [output_path] after [if output_path is None: ...]. *)
Definition output_path_of (input_path : string)
    (output_path : option string) : string :=
  match output_path with
  | None => default_output_path input_path
  | Some p => p
  end.

(** [compress_pdf(self, input_path, output_path=None)]. *)
Definition compress_pdf (self : PDFCompressor) (input_path : string)
    (output_path : option string) : M string :=
  there <- os_path_exists input_path ;;
  if negb there then
    raise (Raise "FileNotFoundError"
             ("Input file not found: " +:+ input_path))
  else
  let output_path := output_path_of input_path output_path in
  original_size <- get_file_size input_path ;;
  if Qle_bool (inject_Z original_size) (target_size_bytes self) then
    shutil_copy2 input_path output_path ;;;
    ret output_path
  else
  let st := {| best_result := None; best_size := Infinity |} in
  st <- search_levels (target_size_bytes self)
          (compress_pdf_images input_path (output_path +:+ ".temp"))
          (output_path +:+ ".temp")
          (scale_factors self) (quality_levels self) st ;;
  st <- (if negb (is_set (best_result st)) then
           search_levels (target_size_bytes self)
             (compress_pdf_rendering input_path (output_path +:+ ".temp2"))
             (output_path +:+ ".temp2")
             (scale_factors self) dpi_levels st
         else ret st) ;;
  finalize_result original_size output_path st.

End Compressor.

(** * pdf_utils.py: class PDFAnalyzer *)

(** The accumulators of the page loop of [analyze_pdf]: the four locals
    and the two dictionary entries the loop updates
    ([analysis['total_images']] and [analysis['image_sizes']]). *)
Record tally : Type := {
  total_images : Z;
  image_sizes : list Z;
  total_image_area : Z;
  total_page_area : Q;
  total_dpi : Q;
  dpi_count : Z
}.

Definition tally_start : tally :=
  {| total_images := 0; image_sizes := []; total_image_area := 0;
     total_page_area := 0; total_dpi := 0; dpi_count := 0 |}.

(** The body of [for img in images], with its [except Exception: continue]. *)
Definition analyze_image (doc : document) (t : tally) (xref : Z) : tally :=
  match extract_image doc xref with
  | inl _ => t
  | inr base_image =>
      match bi_image base_image with
      | None => t
      | Some data =>
          let image_bytes := len data in
          let sizes := image_sizes t ++ [image_bytes] in
          let img_width := default 0 (bi_width base_image) in
          let img_height := default 0 (bi_height base_image) in
          if (0 <? img_width) && (0 <? img_height) then
            let estimated_dpi :=
              (inject_Z (Z.max img_width img_height) / (85 # 10))%Q in
            let image_area := img_width * img_height in
            {| total_images := total_images t;
               image_sizes := sizes;
               total_image_area := total_image_area t + image_area;
               total_page_area := total_page_area t;
               total_dpi := (total_dpi t + estimated_dpi)%Q;
               dpi_count := dpi_count t + 1 |}
          else
            {| total_images := total_images t;
               image_sizes := sizes;
               total_image_area := total_image_area t;
               total_page_area := total_page_area t;
               total_dpi := total_dpi t;
               dpi_count := dpi_count t |}
      end
  end.

(** The body of [for page_num in range(doc.page_count)]. *)
Definition analyze_page (doc : document) (t : tally) (page : page) : tally :=
  let page_area := (rect_width page * rect_height page)%Q in
  let images := get_images page in
  foldl (analyze_image doc)
    {| total_images := total_images t + Z.of_nat (length images);
       image_sizes := image_sizes t;
       total_image_area := total_image_area t;
       total_page_area := (total_page_area t + page_area)%Q;
       total_dpi := total_dpi t;
       dpi_count := dpi_count t |}
    images.

Definition document_tally (doc : document) : tally :=
  foldl (analyze_page doc) tally_start (doc_pages doc).

(** [image_ratio] as [analyze_pdf] computes it. *)
Definition image_ratio (doc : document) : Q :=
  let t := document_tally doc in
  if Qlt_bool 0 (total_page_area t)
  then (inject_Z (total_image_area t)
        / (total_page_area t * inject_Z (page_count doc)))%Q
  else 0%Q.

(** The dictionary [analyze_pdf] returns for an opened document. *)
Definition analyze_document (doc : document) (file_size : Z)
  : gmap string pyval :=
  let analysis : gmap string pyval :=
    list_to_map
      [("page_count", VInt (page_count doc));
       ("total_images", VInt 0);
       ("image_sizes", VList []);
       ("text_heavy", VBool false);
       ("image_heavy", VBool false);
       ("average_dpi", VInt 0);
       ("file_size", VInt file_size)] in
  let t := document_tally doc in
  let analysis := <["total_images" := VInt (total_images t)]> analysis in
  let analysis := <["image_sizes" := VList (image_sizes t)]> analysis in
  if 0 <? total_image_area t then
    let analysis :=
      <["average_dpi" :=
          if 0 <? dpi_count t
          then VFloat (total_dpi t / inject_Z (dpi_count t))%Q
          else VInt 0]> analysis in
    let analysis :=
      <["image_heavy" := VBool (Qlt_bool (3 # 10) (image_ratio doc))]>
        analysis in
    <["text_heavy" := VBool (Qlt_bool (image_ratio doc) (1 # 10))]> analysis
  else analysis.

Section Analyzer.
Context {engine : PdfEngine}.

(** [analyze_pdf(file_path)], reading the file system [fs]. *)
Definition analyze_pdf (fs : gmap string bytes) (file_path : string)
  : gmap string pyval :=
  let body : exn + gmap string pyval :=
    doc <~ match fs !! file_path with
           | Some b => fitz_parse b
           | None => inl (Raise "FileNotFoundError" file_path)
           end ;;
    file_size <~ match fs !! file_path with
                 | Some b => inr (len b)
                 | None => inl (Raise "FileNotFoundError" file_path)
                 end ;;
    inr (analyze_document doc file_size) in
  match body with
  | inr analysis => analysis
  | inl e => {[ "error" := VStr (str e) ]}
  end.

End Analyzer.

(** [analysis[key]]. *)
Definition getitem (analysis : gmap string pyval) (key : string)
  : exn + pyval :=
  match analysis !! key with
  | Some v => inr v
  | None => inl (Raise "KeyError" key)
  end.

(** [recommend_strategy(analysis)]. *)
Definition recommend_strategy (analysis : gmap string pyval) : exn + string :=
  if bool_decide (is_Some (analysis !! "error")) then inr "basic"
  else
    image_heavy <~ getitem analysis "image_heavy" ;;
    if truthy image_heavy then
      average_dpi <~ getitem analysis "average_dpi" ;;
      high <~ py_gt average_dpi 200 ;;
      if high : bool then inr "aggressive_image_compression"
      else inr "moderate_image_compression"
    else
      text_heavy <~ getitem analysis "text_heavy" ;;
      if truthy text_heavy then inr "dpi_reduction"
      else inr "balanced".

(** * Reference notions used by the statements *)

(** What one rebuild attempt leaves at its output path: a saved document,
    or nothing usable (possibly a partly written file). *)
Inductive outcome : Type :=
| Saved (out : bytes)
| Aborted (debris : option bytes).

(** A saved document whose size is within the target. *)
Definition fits (target : Q) (o : outcome) : bool :=
  match o with
  | Saved out => Qle_bool (inject_Z (len out)) target
  | Aborted _ => false
  end.

Section Outcomes.
Context {codec : ImageCodec} {engine : PdfEngine}.

Definition outcome_of (r : exn + list new_page) : outcome :=
  match r with
  | inl _ => Aborted None
  | inr new_pdf =>
      match pdf_save new_pdf with
      | SaveOk out => Saved out
      | SaveFailed _ debris => Aborted debris
      end
  end.

(** The outcome of [compress_pdf_images] on an input with bytes [b]. *)
Definition images_outcome (b : bytes) (quality : Z) (scale : Q) : outcome :=
  outcome_of (doc <~ fitz_parse b ;;
              images_pages (doc_pages doc) 0 quality scale).

(** The outcome of [compress_pdf_rendering] on an input with bytes [b]. *)
Definition rendering_outcome (b : bytes) (dpi : Z) (scale : Q) : outcome :=
  outcome_of (doc <~ fitz_parse b ;;
              rendering_pages (doc_pages doc) dpi scale).

(** The outcome of [compress_pdf_images] when it reads [input_path]
    from the file system [fs]. *)
Definition images_attempt (input_path : string) (quality : Z) (scale : Q)
    (fs : gmap string bytes) : outcome :=
  match fs !! input_path with
  | Some b => images_outcome b quality scale
  | None => Aborted None
  end.

Definition rendering_attempt (input_path : string) (dpi : Z) (scale : Q)
    (fs : gmap string bytes) : outcome :=
  match fs !! input_path with
  | Some b => rendering_outcome b dpi scale
  | None => Aborted None
  end.

(** The file system after an attempt that wrote to [output_path]. *)
Definition after_attempt (o : outcome) (output_path : string)
    (fs : gmap string bytes) : gmap string bytes :=
  match o with
  | Saved out => <[output_path := out]> fs
  | Aborted None => fs
  | Aborted (Some debris) => <[output_path := debris]> fs
  end.

Definition is_saved (o : outcome) : bool :=
  match o with Saved _ => true | Aborted _ => false end.

(** [np] is the flattened version of [page]: the page rendered at
    [zoom], encoded as JPEG at [quality] and placed on a page of the
    original size times [scale]. *)
Definition rasterized_at (zoom scale : Q) (quality : Z)
    (page : page) (np : new_page) : Prop :=
  ∃ pix pil stream,
    get_pixmap page zoom zoom = inr pix
    ∧ pixmap_to_jpeg pix quality = inr stream
    ∧ image_save_jpeg pil quality = inr stream
    ∧ np = {| np_width := (rect_width page * scale)%Q;
              np_height := (rect_height page * scale)%Q;
              np_items :=
                [InsertedImage
                   (Rect 0 0 (rect_width page * scale)%Q
                      (rect_height page * scale)%Q) stream] |}.

(** [np] shows page [page_num] of the source, unrendered, on a page of
    the original size times [scale]. *)
Definition transcluded_at (scale : Q) (page_num : nat)
    (page : page) (np : new_page) : Prop :=
  np = {| np_width := (rect_width page * scale)%Q;
          np_height := (rect_height page * scale)%Q;
          np_items :=
            [ShownPdfPage
               (Rect 0 0 (rect_width page * scale)%Q
                  (rect_height page * scale)%Q) page_num page] |}.

(** [new_pdf] has one page per page of [doc], and page [i] relates to
    its source page by [P i]. *)
Definition rebuilt_with (P : nat → page → new_page → Prop)
    (doc : document) (new_pdf : list new_page) : Prop :=
  length new_pdf = length (doc_pages doc)
  ∧ ∀ (i : nat) page, doc_pages doc !! i = Some page →
      ∃ np, new_pdf !! i = Some np ∧ P i page np.

(** Between [w] and [w'] the input was opened, rebuilt page by page as
    [P] says, and the result saved at [output_path]. *)
Definition saved_rebuild (P : nat → page → new_page → Prop)
    (input_path output_path : string) (w w' : world) : Prop :=
  ∃ b doc new_pdf out,
    files w !! input_path = Some b
    ∧ fitz_parse b = inr doc
    ∧ rebuilt_with P doc new_pdf
    ∧ pdf_save new_pdf = SaveOk out
    ∧ files w' = <[output_path := out]> (files w).

(** Color-mode normalization as the specification words it: an image
    with alpha or a palette is composited onto white, any other
    non-RGB image is converted. *)
Definition spec_normalize (image : pil_image) : exn + pil_image :=
  if bool_decide (image_mode image = "RGBA") then paste_on_white image true
  else if bool_decide (image_mode image = "P") then paste_on_white image false
  else if bool_decide (image_mode image = "RGB") then inr image
  else image_convert_RGB image.

(** Proportional resizing with truncated dimensions when [scale < 1]. *)
Definition spec_rescale (image : pil_image) (scale : Q) : exn + pil_image :=
  if Qlt_bool scale 1
  then image_resize image
         (py_int (inject_Z (image_width image) * scale),
          py_int (inject_Z (image_height image) * scale))
  else inr image.
End Outcomes.

(** The diagnostic [compress_image] prints when it falls back. *)
Definition image_warning (e : exn) : string :=
  "Warning: Could not compress image: " +:+ str e.

(** The locals record the file at [temp_output], which is within the
    target. *)
Definition selected (target : Q) (temp_output : string) (st : search)
    (w : world) : Prop :=
  ∃ b, st = {| best_result := Some temp_output;
               best_size := Finite (len b) |}
       ∧ files w !! temp_output = Some b
       ∧ Qle_bool (inject_Z (len b)) target = true.

(** The error of [compress_pdf] when no candidate is within the target. *)
Definition target_unreachable : exn :=
  Raise "Exception"
    "Could not compress PDF to target size. Try a larger target size.".

(** The enumeration order the specification gives for a grid: levels in
    the outer loop, scales in the inner loop. *)
Definition spec_grid (levels : list Z) (scales : list Q) : list (Z * Q) :=
  flat_map (λ level, map (λ scale, (level, scale)) scales) levels.

(** The candidates up to and including the first one that satisfies [p]
    (all of them when none does). *)
Fixpoint upto_first {A} (p : A → bool) (l : list A) : list A :=
  match l with
  | [] => []
  | x :: rest => if p x then [x] else x :: upto_first p rest
  end.

(** The image ratio as the specification words it: total image pixel area
    over the sum of the page areas. *)
Definition spec_image_ratio (doc : document) : Q :=
  (inject_Z (total_image_area (document_tally doc))
   / total_page_area (document_tally doc))%Q.

(** The lookup table of the specification for an analysis without error. *)
Definition spec_strategy_table (image_heavy text_heavy high_dpi : bool)
  : string :=
  if image_heavy then
    if high_dpi then "aggressive_image_compression"
    else "moderate_image_compression"
  else if text_heavy then "dpi_reduction"
  else "balanced".

Definition spec_labels : list string :=
  ["aggressive_image_compression"; "moderate_image_compression";
   "dpi_reduction"; "balanced"].

(** * Concrete collaborators for the examples *)

(** A codec whose JPEG output has [len(pixels) * quality / 10] bytes, so
    that sizes fall with quality and with resolution. *)
Definition example_codec : ImageCodec :=
  {| pil_image := bytes;
     Image_open := λ b,
       match b with
       | [] => inl (Raise "UnidentifiedImageError" "cannot identify image file")
       | _ => inr b
       end;
     image_mode := λ _, "RGB";
     image_width := λ b, len b;
     image_height := λ _, 1;
     paste_on_white := λ b _, inr b;
     image_convert_RGB := λ b, inr b;
     image_resize := λ b size, inr (take (Z.to_nat (fst size)) b);
     image_save_jpeg := λ b quality,
       inr (replicate (Z.to_nat (len b * quality / 10)) x00) |}.

(** One page of 100 by 100 points. *)
Definition example_page (images : list Z) : page :=
  {| rect_width := 100; rect_height := 100; get_images := images;
     page_contents := [x42] |}.

(** An engine that parses every non-empty file as [doc], renders a page
    at zoom [zx] to [int(10 * zx)] pixels and saves a document as the
    concatenation of its image streams. *)
Definition example_engine (doc : document) : PdfEngine :=
  {| pixmap := bytes;
     fitz_parse := λ b,
       match b with
       | [] => inl (Raise "EmptyFileError" "cannot open empty document")
       | _ => inr doc
       end;
     get_pixmap := λ _ zx _, inr (replicate (Z.to_nat (py_int (10 * zx))) x01);
     pixmap_tobytes_ppm := λ pix, inr pix;
     pdf_save := λ new_pdf,
       SaveOk (flat_map
                 (λ np, flat_map
                          (λ it, match it with
                                 | InsertedImage _ stream => stream
                                 | ShownPdfPage _ _ src => page_contents src
                                 end)
                          (np_items np))
                 new_pdf) |}.

(** A one-page document with one embedded image of 400 by 300 pixels. *)
Definition example_doc : document :=
  {| doc_pages := [example_page [7]];
     doc_xrefs := {[ 7 := {| bi_image := Some [x01; x02; x03];
                             bi_width := Some 400;
                             bi_height := Some 300 |} ]} |}.

(** A two-page document: an image of 100 by 80 pixels on the first page,
    text only on the second. *)
Definition two_page_doc : document :=
  {| doc_pages := [example_page [7]; example_page []];
     doc_xrefs := {[ 7 := {| bi_image := Some [x01; x02; x03];
                             bi_width := Some 100;
                             bi_height := Some 80 |} ]} |}.

(** A two-page document with an image of 60 by 50 pixels. *)
Definition sparse_doc : document :=
  {| doc_pages := [example_page [7]; example_page []];
     doc_xrefs := {[ 7 := {| bi_image := Some [x01; x02; x03];
                             bi_width := Some 60;
                             bi_height := Some 50 |} ]} |}.

(** A text-only document. *)
Definition text_doc : document :=
  {| doc_pages := [example_page []]; doc_xrefs := ∅ |}.

(** A file system holding one input of 200 bytes. *)
Definition example_world : world :=
  World {[ "in.pdf" := replicate 200 x25 ]} [] [].

(** A default output path: the input path with a suffix. *)
Definition example_default_output : string → string :=
  λ p, p +:+ "_compressed".

(** * Further functions of the two files *)

(** ** pdf_compressor.py: format_file_size *)

(** The integer nearest to a float, ties going to the even one. *)
Definition round_half_even (x : Q) : Z :=
  let whole := Qfloor x in
  let rest := (x - inject_Z whole)%Q in
  if Qlt_bool rest (1 # 2) then whole
  else if Qlt_bool (1 # 2) rest then whole + 1
  else if Z.even whole then whole
  else whole + 1.

(** [f"{x:.1f}"] for a float [x >= 0]: the nearest multiple of 0.1 (ties
    to even) written with one decimal. *)
Definition format_1f (x : Q) : string :=
  let tenths := round_half_even (x * 10) in
  pretty (tenths / 10) +:+ "." +:+ pretty (tenths mod 10).

(** [format_file_size(self, size_bytes)]. *)
Definition format_file_size (size_bytes : Z) : string :=
  if size_bytes <? 1024 then pretty size_bytes +:+ " B"
  else if size_bytes <? 1024 * 1024
  then format_1f (inject_Z size_bytes / 1024) +:+ " KB"
  else format_1f (inject_Z size_bytes / (1024 * 1024)) +:+ " MB".

(** ** pdf_utils.py: PDFOptimizer.flatten_pdf *)

Section Optimizer.
Context {codec : ImageCodec} {engine : PdfEngine}.

(** The page loop of [flatten_pdf]. *)
Fixpoint flatten_pages (pages : list page) (dpi : Z) : exn + list new_page :=
  match pages with
  | [] => inr []
  | page :: rest =>
      new_page <~
        (let zoom := (inject_Z dpi / 72)%Q in
         pix <~ get_pixmap page zoom zoom ;;
         img_data <~ pixmap_to_jpeg pix 85 ;;
         inr {| np_width := rect_width page; np_height := rect_height page;
                np_items := [InsertedImage
                               (np_rect (rect_width page) (rect_height page))
                               img_data] |}) ;;
      new_doc <~ flatten_pages rest dpi ;;
      inr (new_page :: new_doc)
  end.

(** [flatten_pdf(input_path, output_path, dpi)]. *)
Definition flatten_pdf (input_path output_path : string) (dpi : Z) : M bool :=
  try_except
    (doc <- fitz_open input_path ;;
     new_doc <- lift (flatten_pages (doc_pages doc) dpi) ;;
     new_pdf_save new_doc output_path ;;;
     ret true)
    (λ _, ret false).

End Optimizer.

(** ** pdf_utils.py: class ImageProcessor *)

(** [range(start, stop, -5)]. *)
Definition range_down_5 (start stop : Z) : list Z :=
  map (λ i : nat, start - 5 * Z.of_nat i)
    (seq 0 (Z.to_nat ((start - stop + 4) / 5))).

Section ImageProcessor.
Context {codec : ImageCodec}.

(** A [for quality in ...] loop of [optimize_image_for_pdf]: the first
    encoding of [image] that is within [target_size] is returned. *)
Fixpoint first_encoding (image : pil_image) (target_size : Z)
    (qualities : list Z) : exn + option bytes :=
  match qualities with
  | [] => inr None
  | quality :: rest =>
      output <~ image_save_jpeg image quality ;;
      if len output <=? target_size then inr (Some output)
      else first_encoding image target_size rest
  end.

(** The [for scale in scale_factors] loop of [optimize_image_for_pdf]. *)
Fixpoint resized_encoding (image : pil_image) (target_size min_quality : Z)
    (scales : list Q) : exn + option bytes :=
  match scales with
  | [] => inr None
  | scale :: rest =>
      resized <~ image_resize image
                   (py_int (inject_Z (image_width image) * scale),
                    py_int (inject_Z (image_height image) * scale)) ;;
      hit <~ first_encoding resized target_size
               (range_down_5 85 (min_quality - 1)) ;;
      match hit with
      | Some output => inr (Some output)
      | None => resized_encoding image target_size min_quality rest
      end
  end.

(** The body of the [try] of [optimize_image_for_pdf]. *)
Definition optimize_image_body (image_data : bytes)
    (target_size min_quality : Z) : exn + bytes :=
  image <~ Image_open image_data ;;
  image <~ (if negb (bool_decide (image_mode image = "RGB"))
            then image_convert_RGB image
            else inr image) ;;
  hit <~ first_encoding image target_size
           (range_down_5 95 (min_quality - 1)) ;;
  match hit with
  | Some output => inr output
  | None =>
      hit <~ resized_encoding image target_size min_quality
               [9 # 10; 8 # 10; 7 # 10; 6 # 10; 5 # 10; 4 # 10]%Q ;;
      match hit with
      | Some output => inr output
      | None =>
          final_image <~ image_resize image
                           (py_int (inject_Z (image_width image) * (3 # 10)),
                            py_int (inject_Z (image_height image) * (3 # 10))) ;;
          image_save_jpeg final_image min_quality
      end
  end.

(** [optimize_image_for_pdf(image_data, target_size, min_quality)]. *)
Definition optimize_image_for_pdf (image_data : bytes)
    (target_size min_quality : Z) : bytes :=
  match optimize_image_body image_data target_size min_quality with
  | inr output => output
  | inl _ => image_data
  end.

End ImageProcessor.

Section OptimalDpi.

(** [x ** 0.5] for a float [x >= 0], left open. *)
Variable float_sqrt : Q → Q.


End OptimalDpi.

(** A codec whose JPEG output shrinks with the quality: an image of [n]
    pixels is encoded into [n * quality / 100] bytes. *)
Definition graded_codec : ImageCodec :=
  {| pil_image := bytes;
     Image_open := λ b,
       match b with
       | [] => inl (Raise "UnidentifiedImageError" "cannot identify image file")
       | _ => inr b
       end;
     image_mode := λ _, "RGB";
     image_width := λ b, len b;
     image_height := λ _, 1;
     paste_on_white := λ b _, inr b;
     image_convert_RGB := λ b, inr b;
     image_resize := λ b size, inr (take (Z.to_nat (fst size)) b);
     image_save_jpeg := λ b quality,
       inr (replicate (Z.to_nat (len b * quality / 100)) x00) |}.

(** The entry of [analysis['image_sizes']] an image listed as [xref]
    contributes: its byte length when it can be extracted. *)
Definition listed_size (doc : document) (xref : Z) : option Z :=
  match extract_image doc xref with
  | inr base_image => len <$> bi_image base_image
  | inl _ => None
  end.

(** All images listed by the pages of a document, in page order. *)
Definition listed_images (doc : document) : list Z :=
  flat_map get_images (doc_pages doc).

(** An engine like [example_engine] that cannot save a page shown from
    another document: such a save fails and leaves a partial file. *)
Definition raster_only_engine (doc : document) : PdfEngine :=
  {| pixmap := bytes;
     fitz_parse := λ b,
       match b with
       | [] => inl (Raise "EmptyFileError" "cannot open empty document")
       | _ => inr doc
       end;
     get_pixmap := λ _ zx _, inr (replicate (Z.to_nat (py_int (10 * zx))) x01);
     pixmap_tobytes_ppm := λ pix, inr pix;
     pdf_save := λ new_pdf,
       if forallb
            (λ np, forallb
                     (λ it, match it with
                            | InsertedImage _ _ => true
                            | ShownPdfPage _ _ _ => false
                            end)
                     (np_items np))
            new_pdf
       then SaveOk (flat_map
                      (λ np, flat_map
                               (λ it, match it with
                                      | InsertedImage _ stream => stream
                                      | ShownPdfPage _ _ src =>
                                          page_contents src
                                      end)
                               (np_items np))
                      new_pdf)
       else SaveFailed (Raise "RuntimeError" "cannot show page")
              (Some [x00]) |}.

(** * Properties of the analyzer *)

Section AnalyzerFacts.
Context {engine : PdfEngine}.

Lemma analyze_pdf_opened fs file_path b doc :
  fs !! file_path = Some b →
  fitz_parse b = inr doc →
  analyze_pdf fs file_path = analyze_document doc (len b).
Proof.
  intros Hfile Hparse. unfold analyze_pdf. rewrite Hfile, Hparse. reflexivity.
Qed.

Lemma analyze_pdf_unreadable fs file_path :
  fs !! file_path = None →
  analyze_pdf fs file_path = {[ "error" := VStr file_path ]}.
Proof. intros Hfile. unfold analyze_pdf. rewrite Hfile. reflexivity. Qed.

End AnalyzerFacts.

Lemma analyze_image_area_mono doc t xref :
  total_image_area t ≤ total_image_area (analyze_image doc t xref).
Proof.
  unfold analyze_image.
  destruct (extract_image doc xref) as [e|bi]; [lia|].
  destruct (bi_image bi) as [data|]; [|lia].
  destruct (0 <? default 0 (bi_width bi)) eqn:Hw;
    destruct (0 <? default 0 (bi_height bi)) eqn:Hh; simpl; lia.
Qed.

Lemma analyze_page_without_images doc t p :
  get_images p = [] →
  total_image_area (analyze_page doc t p) = total_image_area t
  ∧ dpi_count (analyze_page doc t p) = dpi_count t.
Proof. intros Himg. unfold analyze_page. rewrite Himg. simpl. auto. Qed.

Lemma tally_without_images doc pages : ∀ t,
  Forall (λ p, get_images p = []) pages →
  total_image_area (foldl (analyze_page doc) t pages) = total_image_area t.
Proof.
  induction pages as [|p pages IH]; intros t Hall; simpl; [reflexivity|].
  inversion Hall as [|? ? Hp Hrest]; subst.
  rewrite IH by assumption.
  apply (analyze_page_without_images doc t p Hp).
Qed.

Lemma document_without_images doc :
  Forall (λ p, get_images p = []) (doc_pages doc) →
  total_image_area (document_tally doc) = 0.
Proof.
  intros Hall. unfold document_tally.
  rewrite tally_without_images by assumption. reflexivity.
Qed.

Lemma image_ratio_without_area doc :
  total_image_area (document_tally doc) = 0 →
  Qlt_bool (image_ratio doc) (1 # 10) = true.
Proof.
  intros Hzero. unfold image_ratio. rewrite Hzero.
  destruct (Qlt_bool 0 (total_page_area (document_tally doc))); [|reflexivity].
  unfold Qlt_bool, Qle_bool, Qdiv, Qmult. simpl. reflexivity.
Qed.

(** What the code computes for a document with image area: both flags
    compare [image_ratio], whose denominator is the summed page area
    times the page count. *)
Lemma analyze_document_classified doc file_size :
  0 < total_image_area (document_tally doc) →
  analyze_document doc file_size !! "image_heavy"
    = Some (VBool (Qlt_bool (3 # 10) (image_ratio doc)))
  ∧ analyze_document doc file_size !! "text_heavy"
    = Some (VBool (Qlt_bool (image_ratio doc) (1 # 10))).
Proof.
  intros Hpos. unfold analyze_document.
  apply Z.ltb_lt in Hpos. rewrite Hpos. split; by simplify_map_eq.
Qed.

(** On a one-page document the two ratios agree. *)
Lemma image_ratio_one_page doc :
  page_count doc = 1 →
  (0 < total_page_area (document_tally doc))%Q →
  (image_ratio doc == spec_image_ratio doc)%Q.
Proof.
  intros Hone Hpos. unfold image_ratio, spec_image_ratio. rewrite Hone.
  assert (Qlt_bool 0 (total_page_area (document_tally doc)) = true) as ->.
  { unfold Qlt_bool. apply negb_true_iff.
    destruct (Qle_bool (total_page_area (document_tally doc)) 0) eqn:Hle;
      [|reflexivity].
    apply Qle_bool_iff in Hle. exfalso. eapply Qlt_not_le; eassumption. }
  rewrite Qmult_1_r. reflexivity.
Qed.

(** C10: a document whose total image pixel area is zero, in particular
    a document without embedded images, is reported with
    [image_heavy = False], [text_heavy = False] and [average_dpi = 0];
    the classification is skipped although the ratio is below 0.10. *)
Theorem analyze_pdf_without_image_area {engine : PdfEngine}
    (fs : gmap string bytes) (file_path : string) (b : bytes)
    (doc : document) :
  fs !! file_path = Some b →
  fitz_parse b = inr doc →
  total_image_area (document_tally doc) = 0
  ∨ Forall (λ p, get_images p = []) (doc_pages doc) →
  analyze_pdf fs file_path !! "image_heavy" = Some (VBool false)
  ∧ analyze_pdf fs file_path !! "text_heavy" = Some (VBool false)
  ∧ analyze_pdf fs file_path !! "average_dpi" = Some (VInt 0)
  ∧ Qlt_bool (image_ratio doc) (1 # 10) = true.
Proof.
  intros Hfile Hparse Hzero.
  assert (total_image_area (document_tally doc) = 0) as Harea.
  { destruct Hzero as [?|Hnone]; [assumption|].
    by apply document_without_images. }
  rewrite (analyze_pdf_opened fs file_path b doc Hfile Hparse).
  split_and!; [| | |by apply image_ratio_without_area].
  all: unfold analyze_document; rewrite Harea; by simplify_map_eq.
Qed.

Lemma analyze_pdf_without_image_area_witness :
  let analysis :=
    @analyze_pdf (example_engine text_doc) (files example_world) "in.pdf" in
  analysis !! "image_heavy" = Some (VBool false)
  ∧ analysis !! "text_heavy" = Some (VBool false)
  ∧ analysis !! "average_dpi" = Some (VInt 0)
  ∧ Qlt_bool (image_ratio text_doc) (1 # 10) = true.
Proof.
  apply (@analyze_pdf_without_image_area (example_engine text_doc)
           (files example_world) "in.pdf" (replicate 200 x25) text_doc).
  - vm_compute. reflexivity.
  - vm_compute. reflexivity.
  - right. vm_compute. repeat constructor.
Defined.

(** C7 at a two-page document: the image covers 8000 of 20000 units, a
    ratio of 0.4, yet [image_heavy] is false because the code divides by
    the page count once more; with an image of 3000 units (ratio 0.15)
    [text_heavy] is true. *)
Theorem analyze_pdf_ratio_divided_by_page_count :
  0 < total_image_area (document_tally two_page_doc)
  ∧ Qlt_bool (3 # 10) (spec_image_ratio two_page_doc) = true
  ∧ @analyze_pdf (example_engine two_page_doc) (files example_world) "in.pdf"
      !! "image_heavy" = Some (VBool false)
  ∧ 0 < total_image_area (document_tally sparse_doc)
  ∧ Qlt_bool (spec_image_ratio sparse_doc) (1 # 10) = false
  ∧ @analyze_pdf (example_engine sparse_doc) (files example_world) "in.pdf"
      !! "text_heavy" = Some (VBool true).
Proof. vm_compute. repeat split; reflexivity. Qed.

(** * Properties of the recommendation *)

Lemma spec_strategy_table_labels ih th hi :
  In (spec_strategy_table ih th hi) spec_labels.
Proof. destruct ih, th, hi; simpl; auto 6. Qed.

Lemma spec_labels_attained label :
  In label spec_labels →
  ∃ ih th hi, spec_strategy_table ih th hi = label.
Proof.
  simpl. intros [<-|[<-|[<-|[<-|[]]]]].
  - by exists true, false, true.
  - by exists true, false, false.
  - by exists false, true, false.
  - by exists false, false, false.
Qed.

Lemma recommend_strategy_error analysis :
  is_Some (analysis !! "error") →
  recommend_strategy analysis = inr "basic".
Proof.
  intros Herr. unfold recommend_strategy.
  by rewrite bool_decide_eq_true_2.
Qed.

(** What [analyze_pdf] returns for a missing file is such an analysis. *)
Lemma recommend_strategy_unreadable {engine : PdfEngine} fs file_path :
  fs !! file_path = None →
  recommend_strategy (analyze_pdf fs file_path) = inr "basic".
Proof.
  intros Hfile. rewrite analyze_pdf_unreadable by assumption.
  apply recommend_strategy_error. rewrite lookup_singleton_eq. eauto.
Qed.

(** C9 as stated fails: with the label for an analysis that carries an
    error, [recommend_strategy] has five labels, so no set of four labels
    holds every result. *)
Lemma recommend_strategy_has_five_labels :
  ¬ ∃ labels : list string,
      length labels = 4%nat
      ∧ ∀ analysis label,
          recommend_strategy analysis = inr label → In label labels.
Proof.
  intros (labels & Hlen & Hall).
  pose (flags := λ ih th dpi,
          (list_to_map [("image_heavy", VBool ih); ("text_heavy", VBool th);
                        ("average_dpi", VInt dpi)] : gmap string pyval)).
  assert (incl ["basic"; "aggressive_image_compression";
                "moderate_image_compression"; "dpi_reduction"; "balanced"]
               labels) as Hincl.
  { intros label Hin. simpl in Hin.
    destruct Hin as [<-|[<-|[<-|[<-|[<-|[]]]]]].
    - apply (Hall {[ "error" := VStr "unreadable" ]}). reflexivity.
    - apply (Hall (flags true false 300)). reflexivity.
    - apply (Hall (flags true false 72)). reflexivity.
    - apply (Hall (flags false true 0)). reflexivity.
    - apply (Hall (flags false false 0)). reflexivity. }
  apply NoDup_incl_length in Hincl.
  - rewrite Hlen in Hincl. simpl in Hincl. lia.
  - repeat constructor; simpl; intuition discriminate.
Qed.

(** C9, amended: on an analysis without error that carries the two flags
    and a numeric average DPI, the label is the entry of a table indexed
    by [image_heavy], [text_heavy] and [average_dpi > 200]; the table has
    exactly four labels, each of them attained; an analysis with an error
    gets the fifth label ["basic"]. *)
Theorem recommend_strategy_table (analysis : gmap string pyval)
    (image_heavy text_heavy average_dpi : pyval) (high_dpi : bool) :
  analysis !! "error" = None →
  analysis !! "image_heavy" = Some image_heavy →
  analysis !! "text_heavy" = Some text_heavy →
  analysis !! "average_dpi" = Some average_dpi →
  py_gt average_dpi 200 = inr high_dpi →
  recommend_strategy analysis
    = inr (spec_strategy_table (truthy image_heavy) (truthy text_heavy)
             high_dpi)
  ∧ In (spec_strategy_table (truthy image_heavy) (truthy text_heavy) high_dpi)
       spec_labels
  ∧ length spec_labels = 4%nat
  ∧ NoDup spec_labels
  ∧ (∀ label, In label spec_labels →
       ∃ ih th hi, spec_strategy_table ih th hi = label)
  ∧ (∀ failed : gmap string pyval,
       is_Some (failed !! "error") →
       recommend_strategy failed = inr "basic" ∧ ¬ In "basic" spec_labels).
Proof.
  intros Herr Hih Hth Hdpi Hhigh. split_and!.
  - unfold recommend_strategy, getitem.
    rewrite Herr, Hih, Hth, Hdpi. simpl.
    unfold spec_strategy_table.
    destruct (truthy image_heavy); simpl.
    + rewrite Hhigh. simpl. by destruct high_dpi.
    + by destruct (truthy text_heavy).
  - apply spec_strategy_table_labels.
  - reflexivity.
  - apply NoDup_ListNoDup. repeat constructor; simpl; intuition discriminate.
  - apply spec_labels_attained.
  - intros failed Hfailed. split.
    + by apply recommend_strategy_error.
    + simpl. intuition discriminate.
Qed.

Lemma recommend_strategy_table_witness :
  recommend_strategy
    (@analyze_pdf (example_engine example_doc) (files example_world) "in.pdf")
    = inr "moderate_image_compression".
Proof.
  refine (proj1 (recommend_strategy_table
    (@analyze_pdf (example_engine example_doc) (files example_world) "in.pdf")
    (VBool true) (VBool false) (VFloat (4000 # 85)) false _ _ _ _ _)).
  - vm_compute. reflexivity.
  - vm_compute. reflexivity.
  - vm_compute. reflexivity.
  - vm_compute. reflexivity.
  - vm_compute. reflexivity.
Defined.

(** * Properties of the image recompressor *)

Section RecompressorFacts.
Context {codec : ImageCodec}.

Lemma spec_normalize_code image :
  (if bool_decide (image_mode image = "RGBA")
      || bool_decide (image_mode image = "P")
   then paste_on_white image (bool_decide (image_mode image = "RGBA"))
   else if negb (bool_decide (image_mode image = "RGB"))
   then image_convert_RGB image
   else inr image) = spec_normalize image.
Proof.
  unfold spec_normalize.
  destruct (bool_decide (image_mode image = "RGBA")) eqn:Hrgba; simpl;
    [reflexivity|].
  destruct (bool_decide (image_mode image = "P")); simpl; [reflexivity|].
  by destruct (bool_decide (image_mode image = "RGB")).
Qed.

(** C5: [compress_image] always returns.  When decoding, color
    conversion, resizing or encoding raises, it returns the input bytes
    and prints one warning; otherwise it returns the encoder's bytes
    and prints nothing.  Files are not touched. *)
Theorem compress_image_never_raises (image_data : bytes) (quality : Z)
    (scale : Q) (w : world) :
  ∃ out w',
    compress_image image_data quality scale w = (inr out, w')
    ∧ files w' = files w
    ∧ calls w' = calls w
    ∧ match Image_open image_data with
      | inl e => out = image_data ∧ printed w' = printed w ++ [image_warning e]
      | inr image =>
        match spec_normalize image with
        | inl e =>
            out = image_data ∧ printed w' = printed w ++ [image_warning e]
        | inr image =>
          match spec_rescale image scale with
          | inl e =>
              out = image_data
              ∧ printed w' = printed w ++ [image_warning e]
          | inr image =>
            match image_save_jpeg image quality with
            | inl e =>
                out = image_data
                ∧ printed w' = printed w ++ [image_warning e]
            | inr jpeg => out = jpeg ∧ printed w' = printed w
            end
          end
        end
      end.
Proof.
  unfold compress_image, try_except, bind, lift.
  destruct (Image_open image_data) as [e|image]; simpl.
  { eexists _, _. split_and!; reflexivity. }
  rewrite spec_normalize_code.
  destruct (spec_normalize image) as [e|image1]; simpl.
  { eexists _, _. split_and!; reflexivity. }
  fold (spec_rescale image1 scale).
  destruct (spec_rescale image1 scale) as [e|image2]; simpl.
  { eexists _, _. split_and!; reflexivity. }
  destruct (image_save_jpeg image2 quality) as [e|jpeg]; simpl.
  { eexists _, _. split_and!; reflexivity. }
  eexists _, _. split_and!; reflexivity.
Qed.

End RecompressorFacts.

(** * Properties of the two rebuilds *)

Section RebuildFacts.
Context {codec : ImageCodec} {engine : PdfEngine}.

Lemma pixmap_to_jpeg_quality pix quality stream :
  pixmap_to_jpeg pix quality = inr stream →
  ∃ pil, image_save_jpeg pil quality = inr stream.
Proof.
  unfold pixmap_to_jpeg, ebind.
  destruct (pixmap_tobytes_ppm pix) as [e|img_data]; [discriminate|].
  destruct (Image_open img_data) as [e|pil]; [discriminate|].
  destruct (negb (bool_decide (image_mode pil = "RGB"))).
  - destruct (image_convert_RGB pil) as [e|pil']; [discriminate|]. eauto.
  - eauto.
Qed.

(** Every page of a full re-render is flattened at quality 85. *)
Lemma rendering_pages_rasterized dpi scale : ∀ pages new_pdf,
  rendering_pages pages dpi scale = inr new_pdf →
  Forall2 (rasterized_at (inject_Z dpi / 72 * scale)%Q scale 85)
    pages new_pdf.
Proof.
  induction pages as [|page rest IH]; intros new_pdf Hrun; simpl in Hrun.
  - injection Hrun as <-. constructor.
  - unfold ebind in Hrun at 1. unfold ebind in Hrun at 1.
    destruct (get_pixmap page _ _) as [e|pix] eqn:Hpix; [discriminate|].
    unfold ebind in Hrun at 1.
    destruct (pixmap_to_jpeg pix 85) as [e|stream] eqn:Hjpeg; [discriminate|].
    unfold ebind in Hrun.
    destruct (rendering_pages rest dpi scale) as [e|tail] eqn:Hrest;
      [discriminate|].
    injection Hrun as <-. constructor; [|by apply IH].
    destruct (pixmap_to_jpeg_quality _ _ _ Hjpeg) as [pil Hpil].
    by exists pix, pil, stream.
Qed.

(** A page of an image rebuild is flattened at the [quality] argument
    when it lists an image and shown unrendered otherwise. *)
Lemma images_pages_rebuilt quality scale : ∀ pages page_num new_pdf,
  images_pages pages page_num quality scale = inr new_pdf →
  length new_pdf = length pages
  ∧ ∀ (i : nat) page, pages !! i = Some page →
      ∃ np, new_pdf !! i = Some np
        ∧ (get_images page ≠ [] → rasterized_at scale scale quality page np)
        ∧ (get_images page = [] →
             transcluded_at scale (page_num + i) page np).
Proof.
  induction pages as [|page rest IH]; intros page_num new_pdf Hrun;
    simpl in Hrun.
  - injection Hrun as <-. split; [reflexivity|]. intros i p Hi.
    rewrite lookup_nil in Hi. discriminate.
  - unfold ebind in Hrun at 1.
    destruct (get_images page) as [|xref xrefs] eqn:Himg.
    + unfold ebind in Hrun.
      destruct (images_pages rest (S page_num) quality scale)
        as [e|tail] eqn:Hrest; [discriminate|].
      injection Hrun as <-.
      destruct (IH _ _ Hrest) as [Hlen Hpages].
      split; [simpl; congruence|].
      intros [|i] p Hi; simpl in Hi.
      * injection Hi as <-. eexists. split; [reflexivity|].
        split; [congruence|]. intros _.
        unfold transcluded_at, np_rect. by rewrite Nat.add_0_r.
      * destruct (Hpages i p Hi) as (np & Hnp & Hr & Ht).
        exists np. split; [exact Hnp|]. split; [exact Hr|].
        intros Hnone. specialize (Ht Hnone).
        by replace (page_num + S i)%nat with (S page_num + i)%nat by lia.
    + unfold ebind in Hrun at 1.
      destruct (get_pixmap page scale scale) as [e|pix] eqn:Hpix;
        [discriminate|].
      unfold ebind in Hrun at 1.
      destruct (pixmap_to_jpeg pix quality) as [e|stream] eqn:Hjpeg;
        [discriminate|].
      unfold ebind in Hrun.
      destruct (images_pages rest (S page_num) quality scale)
        as [e|tail] eqn:Hrest; [discriminate|].
      injection Hrun as <-.
      destruct (IH _ _ Hrest) as [Hlen Hpages].
      split; [simpl; congruence|].
      intros [|i] p Hi; simpl in Hi.
      * injection Hi as <-. eexists. split; [reflexivity|].
        split; [|rewrite Himg; discriminate]. intros _.
        destruct (pixmap_to_jpeg_quality _ _ _ Hjpeg) as [pil Hpil].
        by exists pix, pil, stream.
      * destruct (Hpages i p Hi) as (np & Hnp & Hr & Ht).
        exists np. split; [exact Hnp|]. split; [exact Hr|].
        intros Hnone. specialize (Ht Hnone).
        by replace (page_num + S i)%nat with (S page_num + i)%nat by lia.
Qed.

(** A successful [compress_pdf_images] parsed the input, built a
    document and saved it at the output path. *)
Lemma compress_pdf_images_true input_path output_path quality scale w w' :
  compress_pdf_images input_path output_path quality scale w
    = (inr true, w') →
  ∃ b doc new_pdf out,
    files w !! input_path = Some b
    ∧ fitz_parse b = inr doc
    ∧ images_pages (doc_pages doc) 0 quality scale = inr new_pdf
    ∧ pdf_save new_pdf = SaveOk out
    ∧ files w' = <[output_path := out]> (files w).
Proof.
  unfold compress_pdf_images, try_except, bind, log_call, fitz_open,
    new_pdf_save, lift, ret, raise, print, write_file. simpl.
  destruct (files w !! input_path) as [b|] eqn:Hfile; simpl;
    [|intros [=]].
  destruct (fitz_parse b) as [e|doc] eqn:Hparse; simpl; [intros [=]|].
  destruct (images_pages (doc_pages doc) 0 quality scale)
    as [e|new_pdf] eqn:Hpages; simpl; [intros [=]|].
  destruct (pdf_save new_pdf) as [out|e [d|]] eqn:Hsave; simpl;
    intros [= <-].
  by exists b, doc, new_pdf, out.
Qed.

Lemma compress_pdf_rendering_true input_path output_path dpi scale w w' :
  compress_pdf_rendering input_path output_path dpi scale w
    = (inr true, w') →
  ∃ b doc new_pdf out,
    files w !! input_path = Some b
    ∧ fitz_parse b = inr doc
    ∧ rendering_pages (doc_pages doc) dpi scale = inr new_pdf
    ∧ pdf_save new_pdf = SaveOk out
    ∧ files w' = <[output_path := out]> (files w).
Proof.
  unfold compress_pdf_rendering, try_except, bind, log_call, fitz_open,
    new_pdf_save, lift, ret, raise, print, write_file. simpl.
  destruct (files w !! input_path) as [b|] eqn:Hfile; simpl;
    [|intros [=]].
  destruct (fitz_parse b) as [e|doc] eqn:Hparse; simpl; [intros [=]|].
  destruct (rendering_pages (doc_pages doc) dpi scale)
    as [e|new_pdf] eqn:Hpages; simpl; [intros [=]|].
  destruct (pdf_save new_pdf) as [out|e [d|]] eqn:Hsave; simpl;
    intros [= <-].
  by exists b, doc, new_pdf, out.
Qed.

End RebuildFacts.

Section RebuildTheorems.
Context {codec : ImageCodec} {engine : PdfEngine}.

Lemma rebuilt_with_impl (P P' : nat → page → new_page → Prop) doc new_pdf :
  (∀ i page np, P i page np → P' i page np) →
  rebuilt_with P doc new_pdf → rebuilt_with P' doc new_pdf.
Proof.
  intros Himpl [Hlen Hpages]. split; [exact Hlen|].
  intros i page Hi. destruct (Hpages i page Hi) as (np & Hnp & HP).
  exists np. auto.
Qed.

Lemma rendering_rebuilt doc dpi scale new_pdf :
  rendering_pages (doc_pages doc) dpi scale = inr new_pdf →
  rebuilt_with
    (λ _, rasterized_at (inject_Z dpi / 72 * scale)%Q scale 85) doc new_pdf.
Proof.
  intros Hrun. apply rendering_pages_rasterized in Hrun. split.
  - symmetry. by eapply Forall2_length.
  - intros i page Hi.
    destruct (Forall2_lookup_l _ _ _ _ _ Hrun Hi) as (np & Hnp & HP).
    eauto.
Qed.

Lemma images_rebuilt doc quality scale new_pdf :
  images_pages (doc_pages doc) 0 quality scale = inr new_pdf →
  rebuilt_with
    (λ i page np,
       (get_images page ≠ [] → rasterized_at scale scale quality page np)
       ∧ (get_images page = [] → transcluded_at scale i page np))
    doc new_pdf.
Proof.
  intros Hrun. apply images_pages_rebuilt in Hrun as [Hlen Hpages].
  split; [exact Hlen|]. intros i page Hi.
  destruct (Hpages i page Hi) as (np & Hnp & Hr & Ht). eauto.
Qed.

(** C6, amended: a successful full re-render encodes every page at
    JPEG quality 85, whatever [dpi] and [scale]; a successful image
    rebuild encodes every page that lists an image at its [quality]
    argument. *)
Theorem rasterization_quality (input_path output_path : string)
    (quality dpi : Z) (scale : Q) (w : world) :
  (∀ w', compress_pdf_rendering input_path output_path dpi scale w
           = (inr true, w') →
     saved_rebuild
       (λ _, rasterized_at (inject_Z dpi / 72 * scale)%Q scale 85)
       input_path output_path w w')
  ∧ (∀ w', compress_pdf_images input_path output_path quality scale w
             = (inr true, w') →
       saved_rebuild
         (λ _ page np,
            get_images page ≠ [] → rasterized_at scale scale quality page np)
         input_path output_path w w').
Proof.
  split; intros w' Hrun.
  - apply compress_pdf_rendering_true in Hrun
      as (b & doc & new_pdf & out & Hfile & Hparse & Hpages & Hsave & Hfs).
    exists b, doc, new_pdf, out. split_and!; try done.
    by apply rendering_rebuilt.
  - apply compress_pdf_images_true in Hrun
      as (b & doc & new_pdf & out & Hfile & Hparse & Hpages & Hsave & Hfs).
    exists b, doc, new_pdf, out. split_and!; try done.
    eapply rebuilt_with_impl; [|by apply images_rebuilt].
    intros i page np [Hr _]. exact Hr.
Qed.

(** C8: in a successful image rebuild every page without embedded
    images is shown unrendered on a new page whose width and height
    are the original's times [scale]; nothing on it is a raster and
    its aspect ratio is the original's. *)
Theorem image_free_pages_transcluded (input_path output_path : string)
    (quality : Z) (scale : Q) (w w' : world) :
  compress_pdf_images input_path output_path quality scale w
    = (inr true, w') →
  saved_rebuild
    (λ i page np,
       get_images page = [] →
       transcluded_at scale i page np
       ∧ (np_width np == rect_width page * scale)%Q
       ∧ (np_height np == rect_height page * scale)%Q
       ∧ (np_width np * rect_height page
          == np_height np * rect_width page)%Q
       ∧ ∀ r stream, InsertedImage r stream ∉ np_items np)
    input_path output_path w w'.
Proof.
  intros Hrun.
  apply compress_pdf_images_true in Hrun
    as (b & doc & new_pdf & out & Hfile & Hparse & Hpages & Hsave & Hfs).
  exists b, doc, new_pdf, out. split_and!; try done.
  eapply rebuilt_with_impl; [|by apply images_rebuilt].
  intros i page np [_ Ht] Hnone. specialize (Ht Hnone).
  split; [exact Ht|]. unfold transcluded_at in Ht. subst np. simpl.
  split_and!.
  - reflexivity.
  - reflexivity.
  - ring.
  - intros r stream Hin. apply list_elem_of_singleton in Hin. discriminate.
Qed.

End RebuildTheorems.

Lemma rasterization_quality_witness :
  saved_rebuild (engine := example_engine example_doc)
    (λ _, rasterized_at (codec := example_codec)
            (engine := example_engine example_doc)
            (inject_Z 150 / 72 * 1)%Q 1 85)
    "in.pdf" "out.pdf.temp2" example_world
    (World (<["out.pdf.temp2" := replicate 170 x00]> (files example_world))
       [] [CallRendering "in.pdf" "out.pdf.temp2" 150 1])
  ∧ saved_rebuild (engine := example_engine example_doc)
      (λ _ page np,
         get_images page ≠ [] →
         rasterized_at (codec := example_codec)
           (engine := example_engine example_doc) 1 1 40 page np)
      "in.pdf" "out.pdf.temp2" example_world
      (World (<["out.pdf.temp2" := replicate 40 x00]> (files example_world))
         [] [CallImages "in.pdf" "out.pdf.temp2" 40 1]).
Proof.
  split.
  - apply (proj1 (@rasterization_quality example_codec
                    (example_engine example_doc)
                    "in.pdf" "out.pdf.temp2" 40 150 1 example_world)).
    vm_compute. reflexivity.
  - apply (proj2 (@rasterization_quality example_codec
                    (example_engine example_doc)
                    "in.pdf" "out.pdf.temp2" 40 150 1 example_world)).
    vm_compute. reflexivity.
Defined.

Lemma image_free_pages_transcluded_witness :
  let w' := snd (@compress_pdf_images example_codec
                   (example_engine two_page_doc)
                   "in.pdf" "out.pdf.temp" 95 (9 # 10) example_world) in
  saved_rebuild (engine := example_engine two_page_doc)
    (λ i page np,
       get_images page = [] →
       transcluded_at (9 # 10) i page np
       ∧ (np_width np == rect_width page * (9 # 10))%Q
       ∧ (np_height np == rect_height page * (9 # 10))%Q
       ∧ (np_width np * rect_height page == np_height np * rect_width page)%Q
       ∧ ∀ r stream, InsertedImage r stream ∉ np_items np)
    "in.pdf" "out.pdf.temp" example_world w'.
Proof.
  apply (@image_free_pages_transcluded example_codec
           (example_engine two_page_doc)
           "in.pdf" "out.pdf.temp" 95 (9 # 10) example_world).
  vm_compute. reflexivity.
Defined.

(** C6 as stated fails for the image rebuild: at quality 20 the page of
    [example_doc] is encoded into 20 bytes, not into the 85 bytes that
    quality 85 gives for the same rendering. *)
Lemma images_rebuild_quality_not_fixed :
  ¬ ∀ (input_path output_path : string) (quality : Z) (scale : Q)
      (w w' : world),
      @compress_pdf_images example_codec (example_engine example_doc)
        input_path output_path quality scale w = (inr true, w') →
      saved_rebuild (engine := example_engine example_doc)
        (λ _ page np,
           get_images page ≠ [] →
           rasterized_at (codec := example_codec)
             (engine := example_engine example_doc) scale scale 85 page np)
        input_path output_path w w'.
Proof.
  intros Hfixed.
  pose (w' := snd (@compress_pdf_images example_codec
                     (example_engine example_doc)
                     "in.pdf" "out.pdf.temp" 20 1 example_world)).
  assert (@compress_pdf_images example_codec (example_engine example_doc)
            "in.pdf" "out.pdf.temp" 20 1 example_world = (inr true, w'))
    as Hrun by (vm_compute; reflexivity).
  destruct (Hfixed _ _ _ _ _ _ Hrun)
    as (b & doc & new_pdf & out & Hfile & Hparse & [Hlen Hpages] & Hsave & Hfs).
  assert (files w' !! "out.pdf.temp" = Some (replicate 20 x00)) as Hout
    by (vm_compute; reflexivity).
  rewrite Hfs, lookup_insert_eq in Hout. injection Hout as ->.
  vm_compute in Hfile. injection Hfile as <-.
  simpl in Hparse. injection Hparse as <-.
  destruct (Hpages 0%nat (example_page [7]) eq_refl) as (np & Hnp & Hraster).
  destruct Hraster as (pix & pil & stream & Hpix & Hjpeg & _ & ->);
    [discriminate|].
  simpl in Hpix. injection Hpix as <-.
  vm_compute in Hjpeg. injection Hjpeg as <-.
  destruct new_pdf as [|np' [|? ?]]; try discriminate.
  simpl in Hnp. injection Hnp as ->.
  vm_compute in Hsave. discriminate.
Qed.

(** * Properties of the size-target search *)

Lemma append_nonempty (s suffix : string) : suffix ≠ "" → s +:+ suffix ≠ "".
Proof. intros Hne. destruct s; simpl; [exact Hne|discriminate]. Qed.

Lemma append_differs (s suffix : string) : suffix ≠ "" → s +:+ suffix ≠ s.
Proof.
  intros Hne. induction s as [|c s IH]; simpl; [exact Hne|].
  intros [= Heq]. by apply IH.
Qed.

Lemma is_set_some (s : string) : s ≠ "" → is_set (Some s) = true.
Proof.
  intros Hne. simpl. apply negb_true_iff. by apply String.eqb_neq.
Qed.

Lemma find_app_first {A} (p : A → bool) (l1 l2 : list A) :
  find p (l1 ++ l2)
  = match find p l1 with Some x => Some x | None => find p l2 end.
Proof.
  induction l1 as [|x l1 IH]; simpl; [reflexivity|].
  by destruct (p x).
Qed.

Lemma find_map_pair {A B} (p : A * B → bool) (a : A) (l : list B) :
  find p (map (λ b, (a, b)) l)
  = (λ b, (a, b)) <$> find (λ b, p (a, b)) l.
Proof.
  induction l as [|b l IH]; simpl; [reflexivity|].
  by destruct (p (a, b)).
Qed.

Lemma upto_first_app {A} (p : A → bool) (l1 l2 : list A) :
  upto_first p (l1 ++ l2)
  = match find p l1 with
    | Some _ => upto_first p l1
    | None => l1 ++ upto_first p l2
    end.
Proof.
  induction l1 as [|x l1 IH]; simpl; [reflexivity|].
  destruct (p x); [reflexivity|]. rewrite IH. by destruct (find p l1).
Qed.

Lemma upto_first_map_pair {A B} (p : A * B → bool) (a : A) (l : list B) :
  upto_first p (map (λ b, (a, b)) l)
  = map (λ b, (a, b)) (upto_first (λ b, p (a, b)) l).
Proof.
  induction l as [|b l IH]; simpl; [reflexivity|].
  destruct (p (a, b)); simpl; [reflexivity|]. by rewrite IH.
Qed.

Lemma upto_first_none {A} (p : A → bool) (l : list A) :
  find p l = None → upto_first p l = l.
Proof.
  induction l as [|x l IH]; simpl; [reflexivity|].
  destruct (p x); [discriminate|]. intros Hnone. by rewrite IH.
Qed.

Lemma run_bind {A B} (c : M A) (k : A → M B) (w : world) (a : A)
    (w1 : world) :
  c w = (inr a, w1) → (x <- c ;; k x) w = k a w1.
Proof. intros Hrun. unfold bind. by rewrite Hrun. Qed.

Section SearchFacts.
Variable target : Q.
Variable temp_output : string.
Hypothesis temp_nonempty : temp_output ≠ "".

(** ** Whatever the attempts do: a recorded result is a file within
    the target *)

Lemma search_scales_sound (attempt : Q → M bool) : ∀ scales st w st' w',
  best_result st = None →
  search_scales target attempt temp_output scales st w = (inr st', w') →
  st' = st ∨ selected target temp_output st' w'.
Proof.
  induction scales as [|scale rest IH]; intros st w st' w' Hbest Hrun;
    simpl in Hrun.
  { injection Hrun as <- <-. by left. }
  unfold bind in Hrun at 1.
  destruct (attempt scale w) as [[e|ok] w1]; [discriminate|].
  unfold bind in Hrun at 1.
  assert (∀ w2, (there <- os_path_exists temp_output ;;
            (if there
                && negb (bool_decide (Some temp_output = best_result st))
             then os_remove temp_output else ret tt) ;;;
            search_scales target attempt temp_output rest st) w2
           = (inr st', w') → st' = st ∨ selected target temp_output st' w') as Hcontinue.
  { intros w2 Hrest. unfold bind, os_path_exists in Hrest.
    destruct (_ && _).
    - unfold os_remove in Hrest.
      destruct (files w2 !! temp_output); [|discriminate].
      exact (IH _ _ _ _ Hbest Hrest).
    - exact (IH _ _ _ _ Hbest Hrest). }
  destruct ok; [|exact (Hcontinue _ Hrun)].
  unfold bind in Hrun at 1. unfold get_file_size, os_path_getsize in Hrun.
  destruct (files w1 !! temp_output) as [b|] eqn:Hfile; [|discriminate].
  destruct (Qle_bool (inject_Z (len b)) target) eqn:Hfit;
    [|exact (Hcontinue _ Hrun)].
  unfold ret in Hrun. injection Hrun as <- <-.
  right. exists b. unfold improves. rewrite Hbest.
  by rewrite orb_true_r.
Qed.

Lemma search_levels_sound (attempt : Z → Q → M bool) scales :
  ∀ levels st w st' w',
  best_result st = None →
  search_levels target attempt temp_output scales levels st w
    = (inr st', w') →
  st' = st ∨ selected target temp_output st' w'.
Proof.
  induction levels as [|level rest IH]; intros st w st' w' Hbest Hrun;
    simpl in Hrun.
  { injection Hrun as <- <-. by left. }
  unfold bind in Hrun.
  destruct (search_scales target (attempt level) temp_output scales st w)
    as [[e|st1] w1] eqn:Hscales; [discriminate|].
  destruct (search_scales_sound _ _ _ _ _ _ Hbest Hscales) as [->|Hsel].
  - rewrite Hbest in Hrun. simpl in Hrun. exact (IH _ _ _ _ Hbest Hrun).
  - destruct Hsel as (b & -> & Hfile & Hfit). simpl in Hrun.
    rewrite (proj2 (String.eqb_neq _ _) temp_nonempty) in Hrun.
    simpl in Hrun. injection Hrun as <- <-. right. by exists b.
Qed.

End SearchFacts.

Section SearchByOutcome.
Variable target : Q.
Variable temp_output : string.
Hypothesis temp_nonempty : temp_output ≠ "".

(** The attempts behave as an [oracle] on the file system says: they
    leave the oracle's outcome at [temp_output], report whether a
    document was saved, and log one call. *)
Variable attempt : Z → Q → M bool.
Variable oracle : Z → Q → gmap string bytes → outcome.
Variable mk_call : Z → Q → call.
Hypothesis attempt_follows : ∀ level scale w,
  ∃ w1, attempt level scale w
          = (inr (is_saved (oracle level scale (files w))), w1)
        ∧ files w1 = after_attempt (oracle level scale (files w))
                       temp_output (files w)
        ∧ calls w1 = calls w ++ [mk_call level scale].

(** A candidate that does not fit is cleaned up and the loop goes on. *)
Lemma search_scales_miss level scale rest st w :
  best_result st = None →
  fits target (oracle level scale (files w)) = false →
  ∃ w2, search_scales target (attempt level) temp_output (scale :: rest) st w
          = search_scales target (attempt level) temp_output rest st w2
        ∧ files w2 = delete temp_output (files w)
        ∧ calls w2 = calls w ++ [mk_call level scale].
Proof.
  intros Hbest Hmiss.
  destruct (attempt_follows level scale w) as (w1 & Hrun & Hfs & Hcalls).
  simpl. rewrite (run_bind _ _ _ _ _ Hrun).
  assert (files w1 !! temp_output = None → files w1 = files w) as Hnone.
  { rewrite Hfs. destruct (oracle level scale (files w)) as [out|[d|]];
      simpl; rewrite ?lookup_insert_eq; done. }
  assert (∃ w2, (there <- os_path_exists temp_output ;;
                 (if there
                     && negb (bool_decide
                                (Some temp_output = best_result st))
                  then os_remove temp_output else ret tt) ;;;
                 search_scales target (attempt level) temp_output rest st)
                  w1
                = search_scales target (attempt level) temp_output rest
                    st w2
                ∧ files w2 = delete temp_output (files w)
                ∧ calls w2 = calls w ++ [mk_call level scale])
    as Hcleanup.
  { rewrite Hbest.
    rewrite (bool_decide_eq_false_2 (Some temp_output = None)) by done.
    destruct (files w1 !! temp_output) as [b|] eqn:Hfile.
    - exists (set_files (delete temp_output (files w1)) w1). split.
      + erewrite run_bind; [|reflexivity]. simpl.
        rewrite bool_decide_eq_true_2 by (rewrite Hfile; eauto). simpl.
        erewrite run_bind; [reflexivity|].
        unfold os_remove. by rewrite Hfile.
      + simpl. split; [|exact Hcalls].
        rewrite Hfs. destruct (oracle level scale (files w)) as [out|[d|]];
          simpl; by rewrite ?delete_insert_eq.
    - exists w1. split.
      + erewrite run_bind; [|reflexivity]. simpl.
        rewrite bool_decide_eq_false_2
          by (rewrite Hfile; intros [? ?]; discriminate).
        simpl. erewrite run_bind; reflexivity.
      + split; [|exact Hcalls]. rewrite <- (Hnone eq_refl).
        symmetry. by apply delete_id. }
  destruct (oracle level scale (files w)) as [out|d] eqn:Horacle;
    simpl in *.
  - erewrite (run_bind _ _ w1 None w1); [exact Hcleanup|].
    erewrite (run_bind _ _ w1 (len out) w1).
    + by rewrite Hmiss.
    + unfold get_file_size, os_path_getsize.
      by rewrite Hfs, lookup_insert_eq.
  - erewrite (run_bind _ _ w1 None w1); [exact Hcleanup|reflexivity].
Qed.

(** A candidate that fits ends the loop and is recorded. *)
Lemma search_scales_hit level scale rest st w :
  best_result st = None →
  fits target (oracle level scale (files w)) = true →
  ∃ out w1,
    oracle level scale (files w) = Saved out
    ∧ search_scales target (attempt level) temp_output (scale :: rest) st w
      = (inr {| best_result := Some temp_output;
                best_size := Finite (len out) |}, w1)
    ∧ files w1 = <[temp_output := out]> (files w)
    ∧ calls w1 = calls w ++ [mk_call level scale].
Proof.
  intros Hbest Hhit.
  destruct (attempt_follows level scale w) as (w1 & Hrun & Hfs & Hcalls).
  destruct (oracle level scale (files w)) as [out|d] eqn:Horacle;
    [|discriminate].
  simpl in *. exists out, w1. split; [reflexivity|].
  split; [|by split].
  rewrite (run_bind _ _ _ _ _ Hrun).
  erewrite (run_bind _ _ w1 (Some _) w1); [reflexivity|].
  erewrite (run_bind _ _ w1 (len out) w1).
  - rewrite Hhit. unfold improves. rewrite Hbest.
    by rewrite orb_true_r.
  - unfold get_file_size, os_path_getsize.
    by rewrite Hfs, lookup_insert_eq.
Qed.

(** ** Searching under an invariant of the file system *)

Variable P : gmap string bytes → Prop.
Hypothesis P_delete : ∀ fs, P fs → P (delete temp_output fs).

Lemma search_scales_all_miss level : ∀ scales st w,
  best_result st = None →
  P (files w) →
  Forall (λ scale, ∀ fs, P fs → fits target (oracle level scale fs) = false)
    scales →
  ∃ w', search_scales target (attempt level) temp_output scales st w
          = (inr st, w')
        ∧ files w' = match scales with
                     | [] => files w
                     | _ => delete temp_output (files w)
                     end
        ∧ calls w' = calls w ++ map (mk_call level) scales.
Proof.
  induction scales as [|scale rest IH]; intros st w Hbest HP Hall.
  { exists w. simpl. by rewrite app_nil_r. }
  inversion Hall as [|? ? Hmiss Hrest]; subst.
  destruct (search_scales_miss level scale rest st w Hbest (Hmiss _ HP))
    as (w2 & -> & Hfs2 & Hcalls2).
  destruct (IH st w2 Hbest) as (w' & Hrun & Hfs & Hcalls);
    [rewrite Hfs2; by apply P_delete|assumption|].
  exists w'. split; [exact Hrun|]. split.
  - rewrite Hfs, Hfs2. destruct rest; [reflexivity|].
    apply delete_delete_eq.
  - rewrite Hcalls, Hcalls2. simpl. by rewrite <- app_assoc.
Qed.

Lemma spec_grid_no_scales levels : spec_grid levels [] = [].
Proof. induction levels; simpl; [reflexivity|assumption]. Qed.

Lemma search_levels_all_miss scales : ∀ levels st w,
  best_result st = None →
  P (files w) →
  Forall (λ level,
            Forall (λ scale, ∀ fs, P fs →
                      fits target (oracle level scale fs) = false) scales)
    levels →
  ∃ w', search_levels target attempt temp_output scales levels st w
          = (inr st, w')
        ∧ files w' = match spec_grid levels scales with
                     | [] => files w
                     | _ => delete temp_output (files w)
                     end
        ∧ calls w' = calls w
                     ++ map (λ c, mk_call c.1 c.2) (spec_grid levels scales).
Proof.
  induction levels as [|level rest IH]; intros st w Hbest HP Hall.
  { exists w. simpl. by rewrite app_nil_r. }
  inversion Hall as [|? ? Hlevel Hrest]; subst.
  destruct (search_scales_all_miss level scales st w Hbest HP Hlevel)
    as (w1 & Hrun1 & Hfs1 & Hcalls1).
  assert (P (files w1)) as HP1.
  { rewrite Hfs1. destruct scales; [assumption|by apply P_delete]. }
  destruct (IH st w1 Hbest HP1 Hrest) as (w' & Hrun & Hfs & Hcalls).
  exists w'. split; [|split].
  - simpl. rewrite (run_bind _ _ _ _ _ Hrun1). by rewrite Hbest.
  - rewrite Hfs, Hfs1. destruct scales as [|scale scales'].
    + by rewrite !spec_grid_no_scales.
    + simpl. destruct (spec_grid rest (scale :: scales'));
        [reflexivity|apply delete_delete_eq].
  - rewrite Hcalls, Hcalls1. simpl.
    by rewrite List.map_app, List.map_map, <- app_assoc.
Qed.

(** ** Outcomes that do not depend on the file system *)

Variable o : Z → Q → outcome.
Hypothesis oracle_stable : ∀ level scale fs,
  P fs → oracle level scale fs = o level scale.

Lemma search_scales_first_fit level : ∀ scales st w,
  best_result st = None →
  P (files w) →
  ∃ w',
    match find (λ scale, fits target (o level scale)) scales with
    | Some scale =>
        ∃ out, o level scale = Saved out
          ∧ search_scales target (attempt level) temp_output scales st w
            = (inr {| best_result := Some temp_output;
                      best_size := Finite (len out) |}, w')
          ∧ files w' = <[temp_output := out]> (files w)
    | None =>
        search_scales target (attempt level) temp_output scales st w
          = (inr st, w')
        ∧ files w' = match scales with
                     | [] => files w
                     | _ => delete temp_output (files w)
                     end
    end
    ∧ calls w' = calls w
                 ++ map (mk_call level)
                      (upto_first (λ scale, fits target (o level scale))
                         scales).
Proof.
  induction scales as [|scale rest IH]; intros st w Hbest HP.
  { exists w. simpl. by rewrite app_nil_r. }
  simpl find. simpl upto_first.
  destruct (fits target (o level scale)) eqn:Hfit.
  - destruct (search_scales_hit level scale rest st w Hbest)
      as (out & w1 & Horacle & Hrun & Hfs & Hcalls).
    { by rewrite oracle_stable. }
    exists w1. split; [|exact Hcalls].
    exists out. rewrite <- Horacle, oracle_stable by assumption. done.
  - destruct (search_scales_miss level scale rest st w Hbest)
      as (w2 & -> & Hfs2 & Hcalls2).
    { by rewrite oracle_stable. }
    destruct (IH st w2 Hbest) as (w' & Hcase & Hcalls);
      [rewrite Hfs2; by apply P_delete|].
    exists w'. split.
    + destruct (find _ rest) as [hit|].
      * destruct Hcase as (out & Hout & Hrun & Hfs).
        exists out. split_and!; [done|done|].
        by rewrite Hfs, Hfs2, insert_delete_eq.
      * destruct Hcase as [Hrun Hfs]. split; [done|].
        rewrite Hfs, Hfs2. destruct rest; [reflexivity|].
        apply delete_delete_eq.
    + rewrite Hcalls, Hcalls2. simpl. by rewrite <- app_assoc.
Qed.

Lemma search_levels_first_fit scales : ∀ levels st w,
  best_result st = None →
  P (files w) →
  ∃ w',
    match find (λ c, fits target (o c.1 c.2)) (spec_grid levels scales) with
    | Some c =>
        ∃ out, o c.1 c.2 = Saved out
          ∧ search_levels target attempt temp_output scales levels st w
            = (inr {| best_result := Some temp_output;
                      best_size := Finite (len out) |}, w')
          ∧ files w' = <[temp_output := out]> (files w)
    | None =>
        search_levels target attempt temp_output scales levels st w
          = (inr st, w')
        ∧ files w' = match spec_grid levels scales with
                     | [] => files w
                     | _ => delete temp_output (files w)
                     end
    end
    ∧ calls w' = calls w
                 ++ map (λ c, mk_call c.1 c.2)
                      (upto_first (λ c, fits target (o c.1 c.2))
                         (spec_grid levels scales)).
Proof.
  induction levels as [|level rest IH]; intros st w Hbest HP.
  { exists w. simpl. by rewrite app_nil_r. }
  simpl spec_grid. rewrite find_app_first, upto_first_app, find_map_pair.
  rewrite upto_first_map_pair. simpl.
  destruct (search_scales_first_fit level scales st w Hbest HP)
    as (w1 & Hcase1 & Hcalls1).
  destruct (find (λ scale, fits target (o level scale)) scales)
    as [scale|] eqn:Hfind; simpl.
  - destruct Hcase1 as (out & Hout & Hrun1 & Hfs1).
    exists w1. split.
    + exists out. split_and!; [done| |done].
      rewrite (run_bind _ _ _ _ _ Hrun1). cbn beta. cbn [best_result].
      by rewrite is_set_some.
    + by rewrite Hcalls1, List.map_map.
  - destruct Hcase1 as [Hrun1 Hfs1].
    assert (P (files w1)) as HP1.
    { rewrite Hfs1. destruct scales; [assumption|by apply P_delete]. }
    destruct (IH st w1 Hbest HP1) as (w' & Hcase & Hcalls).
    exists w'. split.
    + destruct (find _ (spec_grid rest scales)) as [c|].
      * destruct Hcase as (out & Hout & Hrun & Hfs).
        exists out. split_and!; [done| |].
        -- rewrite (run_bind _ _ _ _ _ Hrun1). by rewrite Hbest.
        -- rewrite Hfs, Hfs1. destruct scales; [reflexivity|].
           apply insert_delete_eq.
      * destruct Hcase as [Hrun Hfs]. split.
        -- rewrite (run_bind _ _ _ _ _ Hrun1). by rewrite Hbest.
        -- rewrite Hfs, Hfs1. destruct scales as [|scale scales'].
           ++ by rewrite !spec_grid_no_scales.
           ++ simpl. destruct (spec_grid rest (scale :: scales'));
                [reflexivity|apply delete_delete_eq].
    + rewrite Hcalls, Hcalls1.
      rewrite (upto_first_none _ _ Hfind).
      by rewrite List.map_app, List.map_map, <- app_assoc.
Qed.

End SearchByOutcome.

Section CompressPdfFacts.
Context {codec : ImageCodec} {engine : PdfEngine}.
Variable default_output_path : string → string.

Lemma compress_pdf_images_follows input_path temp_output quality scale w :
  ∃ w1, compress_pdf_images input_path temp_output quality scale w
          = (inr (is_saved (images_attempt input_path quality scale
                              (files w))), w1)
        ∧ files w1 = after_attempt
                       (images_attempt input_path quality scale (files w))
                       temp_output (files w)
        ∧ calls w1 = calls w
                     ++ [CallImages input_path temp_output quality scale].
Proof.
  unfold compress_pdf_images, images_attempt, images_outcome, outcome_of,
    try_except, bind, log_call, fitz_open, new_pdf_save, lift, ret, raise,
    print, write_file, ebind.
  simpl. destruct (files w !! input_path) as [b|]; simpl;
    [|eexists; split_and!; reflexivity].
  destruct (fitz_parse b) as [e|doc]; simpl;
    [eexists; split_and!; reflexivity|].
  destruct (images_pages (doc_pages doc) 0 quality scale) as [e|new_pdf];
    simpl; [eexists; split_and!; reflexivity|].
  destruct (pdf_save new_pdf) as [out|e [d|]]; simpl;
    eexists; split_and!; reflexivity.
Qed.

Lemma compress_pdf_rendering_follows input_path temp_output dpi scale w :
  ∃ w1, compress_pdf_rendering input_path temp_output dpi scale w
          = (inr (is_saved (rendering_attempt input_path dpi scale
                              (files w))), w1)
        ∧ files w1 = after_attempt
                       (rendering_attempt input_path dpi scale (files w))
                       temp_output (files w)
        ∧ calls w1 = calls w
                     ++ [CallRendering input_path temp_output dpi scale].
Proof.
  unfold compress_pdf_rendering, rendering_attempt, rendering_outcome,
    outcome_of, try_except, bind, log_call, fitz_open, new_pdf_save, lift,
    ret, raise, print, write_file, ebind.
  simpl. destruct (files w !! input_path) as [b|]; simpl;
    [|eexists; split_and!; reflexivity].
  destruct (fitz_parse b) as [e|doc]; simpl;
    [eexists; split_and!; reflexivity|].
  destruct (rendering_pages (doc_pages doc) dpi scale) as [e|new_pdf];
    simpl; [eexists; split_and!; reflexivity|].
  destruct (pdf_save new_pdf) as [out|e [d|]]; simpl;
    eexists; split_and!; reflexivity.
Qed.

Lemma finalize_result_none original_size output_path st w :
  best_result st = None →
  finalize_result original_size output_path st w
    = (inl target_unreachable, w).
Proof. intros Hbest. unfold finalize_result. by rewrite Hbest. Qed.

(** Finalizing a recorded result moves it to the output path. *)
Lemma finalize_result_selected temp_output original_size output_path
    st w b :
  temp_output ≠ "" →
  temp_output ≠ output_path →
  st = {| best_result := Some temp_output; best_size := Finite (len b) |} →
  files w !! temp_output = Some b →
  finalize_result original_size output_path st w
    = (if original_size =? 0
       then inl (Raise "ZeroDivisionError" "division by zero")
       else inr output_path,
       set_files (<[output_path := b]> (delete temp_output (files w))) w).
Proof.
  intros Hne Hdiff -> Hfile. unfold finalize_result.
  cbn [best_result]. rewrite is_set_some by assumption.
  rewrite bool_decide_eq_false_2 by assumption. cbn [negb].
  erewrite run_bind; [|unfold shutil_move; by rewrite Hfile].
  erewrite run_bind;
    [|unfold get_file_size, os_path_getsize; simpl;
      by rewrite lookup_insert_eq].
  destruct (original_size =? 0); reflexivity.
Qed.

(** C2: when [compress_pdf] returns a path, the file at that path is
    within the target, on the copy path and after either strategy. *)
Theorem compress_pdf_within_target (self : PDFCompressor)
    (input_path : string) (output_path : option string) (w w' : world)
    (returned : string) :
  compress_pdf default_output_path self input_path output_path w
    = (inr returned, w') →
  returned = output_path_of default_output_path input_path output_path
  ∧ ∃ b, files w' !! returned = Some b
         ∧ (inject_Z (len b) <= target_size_bytes self)%Q.
Proof.
  unfold compress_pdf.
  set (out := output_path_of default_output_path input_path output_path).
  set (target := target_size_bytes self).
  intros Hrun.
  unfold bind in Hrun at 1. unfold os_path_exists in Hrun.
  destruct (files w !! input_path) as [b|] eqn:Hfile;
    [|rewrite bool_decide_eq_false_2 in Hrun
        by (intros [? ?]; discriminate); discriminate].
  rewrite bool_decide_eq_true_2 in Hrun by eauto. cbn [negb] in Hrun.
  unfold bind in Hrun at 1.
  unfold get_file_size at 1, os_path_getsize in Hrun. rewrite Hfile in Hrun.
  destruct (Qle_bool (inject_Z (len b)) target) eqn:Hsmall.
  - unfold bind, shutil_copy2, ret in Hrun. rewrite Hfile in Hrun.
    destruct (bool_decide (input_path = out)); [discriminate|].
    injection Hrun as <- <-. split; [reflexivity|].
    exists b. simpl. rewrite lookup_insert_eq.
    split; [reflexivity|]. by apply Qle_bool_iff.
  - unfold bind in Hrun at 1.
    destruct (search_levels target
                (compress_pdf_images input_path (out +:+ ".temp"))
                (out +:+ ".temp") (scale_factors self) (quality_levels self)
                {| best_result := None; best_size := Infinity |} w)
      as [[e|st1] w1] eqn:Hphase1; [discriminate|].
    assert (∀ tmp st w2,
              tmp = out +:+ ".temp" ∨ tmp = out +:+ ".temp2" →
              selected target tmp st w2 →
              finalize_result (len b) out st w2 = (inr returned, w') →
              returned = out
              ∧ ∃ b', files w' !! returned = Some b'
                      ∧ (inject_Z (len b') <= target)%Q) as Hfinal.
    { intros tmp st w2 Htmp (b' & Hst & Hfile' & Hfit) Hfin.
      assert (tmp ≠ "" ∧ tmp ≠ out) as [Hne Hdiff].
      { destruct Htmp as [-> | ->];
          (split; [by apply append_nonempty|by apply append_differs]). }
      rewrite (finalize_result_selected tmp (len b) out st w2 b'
                 Hne Hdiff Hst Hfile') in Hfin.
      destruct (len b =? 0); [discriminate|].
      injection Hfin as <- <-. split; [reflexivity|].
      exists b'. simpl. rewrite lookup_insert_eq.
      split; [reflexivity|]. by apply Qle_bool_iff. }
    apply search_levels_sound in Hphase1;
      [|by apply append_nonempty|reflexivity].
    destruct Hphase1 as [->|Hsel1].
    + cbn [best_result is_set negb] in Hrun. unfold bind in Hrun.
      destruct (search_levels target
                  (compress_pdf_rendering input_path (out +:+ ".temp2"))
                  (out +:+ ".temp2") (scale_factors self) dpi_levels
                  {| best_result := None; best_size := Infinity |} w1)
        as [[e|st2] w2] eqn:Hphase2; [discriminate|].
      apply search_levels_sound in Hphase2;
        [|by apply append_nonempty|reflexivity].
      destruct Hphase2 as [->|Hsel2].
      * rewrite finalize_result_none in Hrun by reflexivity. discriminate.
      * eapply Hfinal; [by right|exact Hsel2|exact Hrun].
    + assert (is_set (best_result st1) = true) as Hset.
      { destruct Hsel1 as (b' & -> & _ & _). cbn [best_result].
        apply is_set_some. by apply append_nonempty. }
      rewrite Hset in Hrun. cbn [negb] in Hrun.
      unfold bind, ret in Hrun.
      eapply Hfinal; [by left|exact Hsel1|exact Hrun].
Qed.

End CompressPdfFacts.

Section CompressPdfTheorems.
Context {codec : ImageCodec} {engine : PdfEngine}.
Variable default_output_path : string → string.

(** The start of [compress_pdf] on an input above the target: the two
    strategies run from empty locals. *)
Lemma compress_pdf_oversized self input_path output_path w b :
  files w !! input_path = Some b →
  Qle_bool (inject_Z (len b)) (target_size_bytes self) = false →
  compress_pdf default_output_path self input_path output_path w
  = (let out := output_path_of default_output_path input_path output_path in
     st <- search_levels (target_size_bytes self)
             (compress_pdf_images input_path (out +:+ ".temp"))
             (out +:+ ".temp") (scale_factors self) (quality_levels self)
             {| best_result := None; best_size := Infinity |} ;;
     st <- (if negb (is_set (best_result st)) then
              search_levels (target_size_bytes self)
                (compress_pdf_rendering input_path (out +:+ ".temp2"))
                (out +:+ ".temp2") (scale_factors self) dpi_levels st
            else ret st) ;;
     finalize_result (len b) out st) w.
Proof.
  intros Hfile Hbig. unfold compress_pdf.
  erewrite run_bind;
    [|unfold os_path_exists; rewrite bool_decide_eq_true_2 by eauto;
      reflexivity].
  cbn [negb].
  erewrite run_bind;
    [|unfold get_file_size, os_path_getsize; by rewrite Hfile].
  by rewrite Hbig.
Qed.

(** The copy path of [compress_pdf]: the output receives the bytes of
    the input and no rebuild is invoked. *)
Lemma compress_pdf_trivial_copy self input_path output_path w b :
  files w !! input_path = Some b →
  Qle_bool (inject_Z (len b)) (target_size_bytes self) = true →
  input_path ≠ output_path_of default_output_path input_path output_path →
  compress_pdf default_output_path self input_path output_path w
  = (inr (output_path_of default_output_path input_path output_path),
     World (<[output_path_of default_output_path input_path output_path
              := b]> (files w))
       (printed w) (calls w)).
Proof.
  intros Hfile Hsmall Hdiff. unfold compress_pdf.
  erewrite run_bind;
    [|unfold os_path_exists; rewrite bool_decide_eq_true_2 by eauto;
      reflexivity].
  cbn [negb].
  erewrite run_bind;
    [|unfold get_file_size, os_path_getsize; by rewrite Hfile].
  rewrite Hsmall.
  erewrite run_bind; [reflexivity|].
  unfold shutil_copy2. rewrite Hfile.
  by rewrite bool_decide_eq_false_2.
Qed.

Lemma input_kept_or_gone (input_path temp_output : string) (b : bytes)
    (fs : gmap string bytes) :
  fs !! input_path = Some b ∨ fs !! input_path = None →
  delete temp_output fs !! input_path = Some b
  ∨ delete temp_output fs !! input_path = None.
Proof.
  intros Hcase. destruct (decide (temp_output = input_path)) as [->|Hne].
  - right. apply lookup_delete_eq.
  - by rewrite lookup_delete_ne.
Qed.

(** C3: when every candidate of both grids fails or exceeds the
    target, [compress_pdf] raises the unreachable-target error after
    all 98 attempts; the file system is the initial one without the
    two temporary paths, so the output path is as it was. *)
Theorem compress_pdf_exhausted (target_size_mb : Q) (input_path : string)
    (output_path : option string) (w : world) (b : bytes) :
  let self := PDFCompressor_init target_size_mb in
  let out := output_path_of default_output_path input_path output_path in
  files w !! input_path = Some b →
  Qle_bool (inject_Z (len b)) (target_size_bytes self) = false →
  Forall (λ quality,
            Forall (λ scale,
                      fits (target_size_bytes self)
                        (images_outcome b quality scale) = false)
              (scale_factors self))
    (quality_levels self) →
  Forall (λ dpi,
            Forall (λ scale,
                      fits (target_size_bytes self)
                        (rendering_outcome b dpi scale) = false)
              (scale_factors self))
    dpi_levels →
  ∃ w',
    compress_pdf default_output_path self input_path output_path w
      = (inl target_unreachable, w')
    ∧ files w'
      = delete (out +:+ ".temp2") (delete (out +:+ ".temp") (files w))
    ∧ files w' !! out = files w !! out
    ∧ files w' !! (out +:+ ".temp") = None
    ∧ files w' !! (out +:+ ".temp2") = None
    ∧ calls w'
      = calls w
        ++ map (λ c, CallImages input_path (out +:+ ".temp") c.1 c.2)
             (spec_grid (quality_levels self) (scale_factors self))
        ++ map (λ c, CallRendering input_path (out +:+ ".temp2") c.1 c.2)
             (spec_grid dpi_levels (scale_factors self))
    ∧ length (calls w') = (length (calls w) + 98)%nat.
Proof.
  intros self out Hfile Hbig Himages Hrendering.
  set (target := target_size_bytes self) in *.
  set (P := λ fs : gmap string bytes,
              fs !! input_path = Some b ∨ fs !! input_path = None).
  destruct (search_levels_all_miss target (out +:+ ".temp")
              (compress_pdf_images input_path (out +:+ ".temp"))
              (images_attempt input_path)
              (CallImages input_path (out +:+ ".temp"))
              (compress_pdf_images_follows input_path (out +:+ ".temp"))
              P (input_kept_or_gone input_path (out +:+ ".temp") b)
              (scale_factors self) (quality_levels self)
              {| best_result := None; best_size := Infinity |} w)
    as (w1 & Hrun1 & Hfs1 & Hcalls1); [reflexivity|by left| |].
  { eapply Forall_impl; [exact Himages|]. intros quality Hq. simpl in Hq.
    eapply Forall_impl; [exact Hq|]. intros scale Hmiss fs HP.
    unfold images_attempt. destruct HP as [-> | ->]; [exact Hmiss|done]. }
  assert (P (files w1)) as HP1.
  { rewrite Hfs1. simpl. apply input_kept_or_gone. by left. }
  destruct (search_levels_all_miss target (out +:+ ".temp2")
              (compress_pdf_rendering input_path (out +:+ ".temp2"))
              (rendering_attempt input_path)
              (CallRendering input_path (out +:+ ".temp2"))
              (compress_pdf_rendering_follows input_path (out +:+ ".temp2"))
              P (input_kept_or_gone input_path (out +:+ ".temp2") b)
              (scale_factors self) dpi_levels
              {| best_result := None; best_size := Infinity |} w1)
    as (w2 & Hrun2 & Hfs2 & Hcalls2); [reflexivity|exact HP1| |].
  { eapply Forall_impl; [exact Hrendering|]. intros dpi Hd. simpl in Hd.
    eapply Forall_impl; [exact Hd|]. intros scale Hmiss fs HP.
    unfold rendering_attempt. destruct HP as [-> | ->]; [exact Hmiss|done]. }
  assert (files w2
          = delete (out +:+ ".temp2") (delete (out +:+ ".temp") (files w)))
    as Hfiles.
  { rewrite Hfs2, Hfs1. reflexivity. }
  assert (calls w2
          = calls w
            ++ map (λ c, CallImages input_path (out +:+ ".temp") c.1 c.2)
                 (spec_grid (quality_levels self) (scale_factors self))
            ++ map (λ c, CallRendering input_path (out +:+ ".temp2")
                           c.1 c.2)
                 (spec_grid dpi_levels (scale_factors self))) as Hcalls.
  { rewrite Hcalls2, Hcalls1. by rewrite <- app_assoc. }
  exists w2. split_and!.
  - rewrite (compress_pdf_oversized self input_path output_path w b Hfile
               Hbig).
    cbv zeta. fold out. fold target.
    rewrite (run_bind _ _ _ _ _ Hrun1). cbn [best_result is_set negb].
    rewrite (run_bind _ _ _ _ _ Hrun2).
    by apply finalize_result_none.
  - exact Hfiles.
  - rewrite Hfiles.
    rewrite !lookup_delete_ne; [reflexivity| |];
      by apply append_differs.
  - rewrite Hfiles. destruct (decide (out +:+ ".temp2" = out +:+ ".temp"))
      as [Heq|Hne].
    + rewrite Heq. apply lookup_delete_eq.
    + rewrite lookup_delete_ne by exact Hne. apply lookup_delete_eq.
  - rewrite Hfiles. apply lookup_delete_eq.
  - exact Hcalls.
  - rewrite Hcalls. rewrite !length_app, !length_map. simpl. lia.
Qed.

Lemma nonempty_above_target (target : Q) (b out : bytes) :
  Qle_bool (inject_Z (len b)) target = false →
  Qle_bool (inject_Z (len out)) target = true →
  (len b =? 0) = false.
Proof.
  intros Hbig Hfit. apply Z.eqb_neq. intros Hzero.
  rewrite Hzero in Hbig. apply Qle_bool_iff in Hfit.
  assert (Qle_bool (inject_Z 0) target = true) as Habs; [|congruence].
  apply Qle_bool_iff. eapply Qle_trans; [|exact Hfit].
  rewrite <- Zle_Qle. unfold len. lia.
Qed.

Lemma upto_first_found {A} (p : A → bool) (l : list A) (x : A) :
  find p l = Some x →
  ∃ before after,
    l = before ++ x :: after
    ∧ Forall (λ y, p y = false) before
    ∧ p x = true
    ∧ upto_first p l = before ++ [x].
Proof.
  induction l as [|y l IH]; simpl; [discriminate|].
  destruct (p y) eqn:Hy.
  - intros [= <-]. exists [], l. by repeat split.
  - intros Hfind. destruct (IH Hfind) as (before & after & -> & Hall & Hx & Hup).
    exists (y :: before), after. rewrite Hup.
    repeat split; [by constructor|exact Hx].
Qed.

(** C1: in the first strategy the candidates are tried quality by
    quality over [95, 85, 75, 65, 50, 40, 30, 20] and, within a quality,
    scale by scale over [1.0, 0.9, 0.8, 0.7, 0.6, 0.5, 0.4].  When
    [(quality, scale)] is the first pair of that order whose rebuilt
    file is within the target, the attempts made are exactly the pairs
    before it, none of which fits, followed by it; both loops stop
    there and its file becomes the output. *)
Theorem compress_pdf_first_fit (target_size_mb : Q) (input_path : string)
    (output_path : option string) (w : world) (b : bytes) (quality : Z)
    (scale : Q) :
  let self := PDFCompressor_init target_size_mb in
  let out := output_path_of default_output_path input_path output_path in
  let fit := λ c : Z * Q,
    fits (target_size_bytes self) (images_outcome b c.1 c.2) in
  let grid :=
    spec_grid [95; 85; 75; 65; 50; 40; 30; 20]
      [1; 9 # 10; 8 # 10; 7 # 10; 6 # 10; 5 # 10; 4 # 10]%Q in
  files w !! input_path = Some b →
  Qle_bool (inject_Z (len b)) (target_size_bytes self) = false →
  input_path ≠ out +:+ ".temp" →
  find fit grid = Some (quality, scale) →
  ∃ chosen before after w',
    grid = before ++ (quality, scale) :: after
    ∧ Forall (λ c, fit c = false) before
    ∧ images_outcome b quality scale = Saved chosen
    ∧ (inject_Z (len chosen) <= target_size_bytes self)%Q
    ∧ compress_pdf default_output_path self input_path output_path w
      = (inr out, w')
    ∧ files w' = <[out := chosen]> (delete (out +:+ ".temp") (files w))
    ∧ calls w'
      = calls w
        ++ map (λ c, CallImages input_path (out +:+ ".temp") c.1 c.2)
             (before ++ [(quality, scale)]).
Proof.
  intros self out fit grid Hfile Hbig Hdiff Hfind.
  set (target := target_size_bytes self) in *.
  destruct (upto_first_found fit grid _ Hfind)
    as (before & after & Hgrid & Hbefore & Hfit & Hupto).
  assert (∀ fs : gmap string bytes,
            fs !! input_path = Some b →
            delete (out +:+ ".temp") fs !! input_path = Some b) as Hkept.
  { intros fs Hfs. by rewrite lookup_delete_ne. }
  assert (∀ level scale' (fs : gmap string bytes),
            fs !! input_path = Some b →
            images_attempt input_path level scale' fs
            = images_outcome b level scale') as Hstable.
  { intros level scale' fs Hfs. unfold images_attempt. by rewrite Hfs. }
  destruct (search_levels_first_fit target (out +:+ ".temp")
              (append_nonempty out ".temp" ltac:(discriminate))
              (compress_pdf_images input_path (out +:+ ".temp"))
              (images_attempt input_path)
              (CallImages input_path (out +:+ ".temp"))
              (compress_pdf_images_follows input_path (out +:+ ".temp"))
              (λ fs, fs !! input_path = Some b) Hkept
              (images_outcome b) Hstable
              (scale_factors self) (quality_levels self)
              {| best_result := None; best_size := Infinity |} w
              eq_refl Hfile)
    as (w1 & Hcase & Hcalls1).
  change (find (λ c : Z * Q, fits target (images_outcome b c.1 c.2))
            (spec_grid (quality_levels self) (scale_factors self)))
    with (find fit grid) in Hcase.
  change (upto_first (λ c : Z * Q, fits target (images_outcome b c.1 c.2))
            (spec_grid (quality_levels self) (scale_factors self)))
    with (upto_first fit grid) in Hcalls1.
  rewrite Hfind in Hcase. cbn [fst snd] in Hcase.
  destruct Hcase as (chosen & Hchosen & Hrun1 & Hfs1).
  assert (Qle_bool (inject_Z (len chosen)) target = true) as Hwithin.
  { unfold fit in Hfit. cbn [fst snd] in Hfit. by rewrite Hchosen in Hfit. }
  exists chosen, before, after.
  exists (set_files (<[out := chosen]>
                       (delete (out +:+ ".temp") (files w1))) w1).
  split_and!; try done.
  - by apply Qle_bool_iff.
  - rewrite (compress_pdf_oversized self input_path output_path w b Hfile
               Hbig).
    cbv zeta. fold out. fold target.
    rewrite (run_bind _ _ _ _ _ Hrun1). cbn beta. cbn [best_result].
    rewrite is_set_some by (apply append_nonempty; discriminate).
    cbn [negb]. erewrite run_bind; [|reflexivity].
    rewrite (finalize_result_selected (out +:+ ".temp") (len b) out _ w1
               chosen); try done.
    + by rewrite (nonempty_above_target target b chosen).
    + apply append_nonempty. discriminate.
    + apply append_differs. discriminate.
    + by rewrite Hfs1, lookup_insert_eq.
  - simpl. by rewrite Hfs1, delete_insert_eq.
  - simpl. by rewrite Hcalls1, Hupto.
Qed.

End CompressPdfTheorems.

Lemma compress_pdf_first_fit_witness :
  ∃ chosen before after w',
    spec_grid [95; 85; 75; 65; 50; 40; 30; 20]
      [1; 9 # 10; 8 # 10; 7 # 10; 6 # 10; 5 # 10; 4 # 10]%Q
    = before ++ (95, (6 # 10)%Q) :: after
    ∧ Forall (λ c : Z * Q,
                fits (target_size_bytes (PDFCompressor_init (60 # 1048576)))
                  (images_outcome (codec := example_codec)
                     (engine := example_engine example_doc)
                     (replicate 200 x25) c.1 c.2) = false) before
    ∧ images_outcome (codec := example_codec)
        (engine := example_engine example_doc)
        (replicate 200 x25) 95 (6 # 10) = Saved chosen
    ∧ (inject_Z (len chosen)
       <= target_size_bytes (PDFCompressor_init (60 # 1048576)))%Q
    ∧ compress_pdf (codec := example_codec)
        (engine := example_engine example_doc) example_default_output
        (PDFCompressor_init (60 # 1048576)) "in.pdf" (Some "out.pdf")
        example_world = (inr "out.pdf", w')
    ∧ files w' = <["out.pdf" := chosen]>
                   (delete "out.pdf.temp" (files example_world))
    ∧ calls w'
      = calls example_world
        ++ map (λ c : Z * Q, CallImages "in.pdf" "out.pdf.temp" c.1 c.2)
             (before ++ [(95, (6 # 10)%Q)]).
Proof.
  apply (@compress_pdf_first_fit example_codec (example_engine example_doc)
           example_default_output (60 # 1048576) "in.pdf" (Some "out.pdf")
           example_world (replicate 200 x25) 95 (6 # 10)).
  - vm_compute. reflexivity.
  - vm_compute. reflexivity.
  - discriminate.
  - vm_compute. reflexivity.
Defined.

Lemma compress_pdf_within_target_witness :
  let run :=
    compress_pdf (codec := example_codec)
      (engine := example_engine example_doc) example_default_output
      (PDFCompressor_init (60 # 1048576)) "in.pdf" None example_world in
  "in.pdf_compressed" = output_path_of example_default_output "in.pdf" None
  ∧ ∃ b, files (snd run) !! "in.pdf_compressed" = Some b
         ∧ (inject_Z (len b)
            <= target_size_bytes (PDFCompressor_init (60 # 1048576)))%Q.
Proof.
  apply (@compress_pdf_within_target example_codec
           (example_engine example_doc) example_default_output
           (PDFCompressor_init (60 # 1048576)) "in.pdf" None example_world).
  vm_compute. reflexivity.
Defined.

Lemma compress_pdf_exhausted_witness :
  ∃ w',
    compress_pdf (codec := example_codec)
      (engine := example_engine example_doc) example_default_output
      (PDFCompressor_init (1 # 1048576)) "in.pdf" (Some "out.pdf")
      example_world = (inl target_unreachable, w')
    ∧ files w'
      = delete "out.pdf.temp2" (delete "out.pdf.temp" (files example_world))
    ∧ files w' !! "out.pdf" = files example_world !! "out.pdf"
    ∧ files w' !! "out.pdf.temp" = None
    ∧ files w' !! "out.pdf.temp2" = None
    ∧ calls w'
      = calls example_world
        ++ map (λ c : Z * Q, CallImages "in.pdf" "out.pdf.temp" c.1 c.2)
             (spec_grid (quality_levels (PDFCompressor_init (1 # 1048576)))
                (scale_factors (PDFCompressor_init (1 # 1048576))))
        ++ map (λ c : Z * Q, CallRendering "in.pdf" "out.pdf.temp2" c.1 c.2)
             (spec_grid dpi_levels
                (scale_factors (PDFCompressor_init (1 # 1048576))))
    ∧ length (calls w') = (length (calls example_world) + 98)%nat.
Proof.
  apply (@compress_pdf_exhausted example_codec (example_engine example_doc)
           example_default_output (1 # 1048576) "in.pdf" (Some "out.pdf")
           example_world (replicate 200 x25)).
  - vm_compute. reflexivity.
  - vm_compute. reflexivity.
  - cbn [quality_levels scale_factors PDFCompressor_init].
    repeat (first [apply Forall_nil_2 | apply Forall_cons_2]).
    all: vm_compute; reflexivity.
  - cbn [quality_levels scale_factors PDFCompressor_init].
    unfold dpi_levels.
    repeat (first [apply Forall_nil_2 | apply Forall_cons_2]).
    all: vm_compute; reflexivity.
Defined.

(** C4 at an output path equal to the input path: the input is within
    the target, and the copy raises instead of returning. *)
Theorem compress_pdf_copy_onto_itself :
  files example_world !! "in.pdf" = Some (replicate 200 x25)
  ∧ Qle_bool (inject_Z (len (replicate 200 x25)))
      (target_size_bytes (PDFCompressor_init 1)) = true
  ∧ compress_pdf (codec := example_codec)
      (engine := example_engine example_doc) example_default_output
      (PDFCompressor_init 1) "in.pdf" (Some "in.pdf") example_world
    = (inl (Raise "SameFileError" "in.pdf"), example_world).
Proof. vm_compute. repeat split; reflexivity. Qed.

(** * Further properties of the size-target search *)

Lemma append_same_prefix (s a b : string) : s +:+ a = s +:+ b → a = b.
Proof.
  induction s as [|c s IH]; simpl; [done|]. intros [= Heq]. by apply IH.
Qed.

Section SearchAlways.
Variable target : Q.
Variable temp_output : string.
Hypothesis temp_nonempty : temp_output ≠ "".
Variable attempt : Z → Q → M bool.
Variable oracle : Z → Q → gmap string bytes → outcome.
Variable mk_call : Z → Q → call.
Hypothesis attempt_follows : ∀ level scale w,
  ∃ w1, attempt level scale w
          = (inr (is_saved (oracle level scale (files w))), w1)
        ∧ files w1 = after_attempt (oracle level scale (files w))
                       temp_output (files w)
        ∧ calls w1 = calls w ++ [mk_call level scale].

(** Whatever the outcomes are, the scale loop ends normally, touches no
    path but [temp_output], makes at most one call per scale, and either
    records a file within the target or leaves no file behind. *)
Lemma search_scales_always level : ∀ scales st w,
  best_result st = None →
  ∃ st' w' cs,
    search_scales target (attempt level) temp_output scales st w
      = (inr st', w')
    ∧ (∀ p, p ≠ temp_output → files w' !! p = files w !! p)
    ∧ calls w' = calls w ++ cs
    ∧ (length cs ≤ length scales)%nat
    ∧ ((st' = st
        ∧ match scales with
          | [] => files w' = files w
          | _ => files w' !! temp_output = None
          end)
       ∨ selected target temp_output st' w').
Proof.
  induction scales as [|scale rest IH]; intros st w Hbest.
  { exists st, w, []. simpl. rewrite app_nil_r. split_and!; auto. }
  destruct (fits target (oracle level scale (files w))) eqn:Hfit.
  - destruct (search_scales_hit target temp_output attempt oracle mk_call
                attempt_follows level scale rest st w Hbest Hfit)
      as (out & w1 & Horacle & Hrun & Hfs & Hcalls).
    eexists _, w1, [mk_call level scale]. split_and!; try done.
    + intros p Hp. by rewrite Hfs, lookup_insert_ne.
    + simpl. lia.
    + right. exists out. split_and!; [done|by rewrite Hfs, lookup_insert_eq|].
      by rewrite Horacle in Hfit.
  - destruct (search_scales_miss target temp_output attempt oracle mk_call
                attempt_follows level scale rest st w Hbest Hfit)
      as (w2 & Hstep & Hfs2 & Hcalls2).
    destruct (IH st w2 Hbest) as (st' & w' & cs & Hrun & Hframe & Hcalls
                                   & Hlen & Hend).
    exists st', w', (mk_call level scale :: cs). split_and!.
    + by rewrite Hstep.
    + intros p Hp. rewrite Hframe by done. by rewrite Hfs2, lookup_delete_ne.
    + rewrite Hcalls, Hcalls2. by rewrite <- app_assoc.
    + simpl. lia.
    + destruct Hend as [[-> Hrest]|Hsel]; [left|by right].
      split; [done|]. destruct rest.
      * rewrite Hrest, Hfs2. apply lookup_delete_eq.
      * exact Hrest.
Qed.

Lemma search_levels_always scales : ∀ levels st w,
  best_result st = None →
  ∃ st' w' cs,
    search_levels target attempt temp_output scales levels st w
      = (inr st', w')
    ∧ (∀ p, p ≠ temp_output → files w' !! p = files w !! p)
    ∧ calls w' = calls w ++ cs
    ∧ (length cs ≤ length levels * length scales)%nat
    ∧ ((st' = st
        ∧ match spec_grid levels scales with
          | [] => files w' = files w
          | _ => files w' !! temp_output = None
          end)
       ∨ selected target temp_output st' w').
Proof.
  induction levels as [|level rest IH]; intros st w Hbest.
  { exists st, w, []. simpl. rewrite app_nil_r. split_and!; auto. }
  destruct (search_scales_always level scales st w Hbest)
    as (st1 & w1 & cs1 & Hrun1 & Hframe1 & Hcalls1 & Hlen1 & Hend1).
  destruct Hend1 as [[-> Hrest1]|Hsel].
  - destruct (IH st w1 Hbest)
      as (st' & w' & cs & Hrun & Hframe & Hcalls & Hlen & Hend).
    exists st', w', (cs1 ++ cs). split_and!.
    + simpl. rewrite (run_bind _ _ _ _ _ Hrun1). by rewrite Hbest.
    + intros p Hp. rewrite Hframe by done. by apply Hframe1.
    + rewrite Hcalls, Hcalls1. by rewrite app_assoc.
    + rewrite length_app. simpl. lia.
    + destruct Hend as [[-> Hrest]|Hsel]; [left|by right].
      split; [done|]. simpl. destruct scales as [|scale scales'].
      * rewrite spec_grid_no_scales in *. simpl. congruence.
      * simpl. destruct (spec_grid rest (scale :: scales')).
        -- rewrite Hrest. exact Hrest1.
        -- exact Hrest.
  - exists st1, w1, cs1. split_and!; try done.
    + simpl. rewrite (run_bind _ _ _ _ _ Hrun1).
      destruct Hsel as (b & -> & _ & _). cbn beta. cbn [best_result].
      by rewrite is_set_some.
    + simpl. lia.
    + by right.
Qed.

End SearchAlways.

Section CompressPdfAlways.
Context {codec : ImageCodec} {engine : PdfEngine}.
Variable default_output_path : string → string.

(** Every run of [compress_pdf] on an input above the target. *)
Lemma compress_pdf_oversized_run self input_path output_path w b :
  let out := output_path_of default_output_path input_path output_path in
  let target := target_size_bytes self in
  files w !! input_path = Some b →
  Qle_bool (inject_Z (len b)) target = false →
  ∃ r w' cs,
    compress_pdf default_output_path self input_path output_path w = (r, w')
    ∧ (∀ p, p ≠ out → p ≠ out +:+ ".temp" → p ≠ out +:+ ".temp2" →
         files w' !! p = files w !! p)
    ∧ calls w' = calls w ++ cs
    ∧ (length cs
       ≤ (length (quality_levels self) + length dpi_levels)
         * length (scale_factors self))%nat
    ∧ (spec_grid (quality_levels self) (scale_factors self) ≠ [] →
       files w' !! (out +:+ ".temp") = None)
    ∧ (files w !! (out +:+ ".temp2") = None →
       files w' !! (out +:+ ".temp2") = None)
    ∧ ((r = inl target_unreachable ∧ files w' !! out = files w !! out)
       ∨ (r = inr out
          ∧ ∃ chosen, files w' !! out = Some chosen
                      ∧ Qle_bool (inject_Z (len chosen)) target = true)).
Proof.
  intros out target Hfile Hbig.
  assert (out +:+ ".temp" ≠ out) as Htemp_out
    by (apply append_differs; discriminate).
  assert (out +:+ ".temp2" ≠ out) as Htemp2_out
    by (apply append_differs; discriminate).
  assert (out +:+ ".temp2" ≠ out +:+ ".temp") as Htemps.
  { intros Heq. apply append_same_prefix in Heq. discriminate. }
  assert (out +:+ ".temp" ≠ "") as Hne1
    by (apply append_nonempty; discriminate).
  assert (out +:+ ".temp2" ≠ "") as Hne2
    by (apply append_nonempty; discriminate).
  rewrite (compress_pdf_oversized default_output_path self input_path
             output_path w b Hfile Hbig).
  cbv zeta. fold out. fold target.
  destruct (search_levels_always target (out +:+ ".temp") Hne1
              (compress_pdf_images input_path (out +:+ ".temp"))
              (images_attempt input_path)
              (CallImages input_path (out +:+ ".temp"))
              (compress_pdf_images_follows input_path (out +:+ ".temp"))
              (scale_factors self) (quality_levels self)
              {| best_result := None; best_size := Infinity |} w eq_refl)
    as (st1 & w1 & cs1 & Hrun1 & Hframe1 & Hcalls1 & Hlen1 & Hend1).
  rewrite (run_bind _ _ _ _ _ Hrun1).
  destruct Hend1 as [[-> Hrest1]|Hsel1].
  - cbn [best_result is_set negb].
    destruct (search_levels_always target (out +:+ ".temp2") Hne2
                (compress_pdf_rendering input_path (out +:+ ".temp2"))
                (rendering_attempt input_path)
                (CallRendering input_path (out +:+ ".temp2"))
                (compress_pdf_rendering_follows input_path (out +:+ ".temp2"))
                (scale_factors self) dpi_levels
                {| best_result := None; best_size := Infinity |} w1 eq_refl)
      as (st2 & w2 & cs2 & Hrun2 & Hframe2 & Hcalls2 & Hlen2 & Hend2).
    rewrite (run_bind _ _ _ _ _ Hrun2).
    assert (spec_grid (quality_levels self) (scale_factors self) ≠ [] →
            files w1 !! (out +:+ ".temp") = None) as Hclean1.
    { intros Hgrid.
      by destruct (spec_grid (quality_levels self) (scale_factors self)). }
    assert (calls w2 = calls w ++ cs1 ++ cs2) as Hcalls.
    { rewrite Hcalls2, Hcalls1. by rewrite <- app_assoc. }
    assert (length (cs1 ++ cs2)
            ≤ (length (quality_levels self) + length dpi_levels)
              * length (scale_factors self))%nat as Hlen.
    { rewrite length_app. lia. }
    destruct Hend2 as [[-> Hrest2]|(chosen & -> & Hchosen & Hwithin)].
    + rewrite finalize_result_none by reflexivity.
      exists (inl target_unreachable), w2, (cs1 ++ cs2).
      split_and!; try done.
      * intros p Hout H1 H2. by rewrite Hframe2, Hframe1.
      * intros Hgrid. rewrite Hframe2 by done. by apply Hclean1.
      * intros Hnone. destruct (spec_grid dpi_levels (scale_factors self)).
        -- rewrite Hrest2. by rewrite Hframe1.
        -- exact Hrest2.
      * left. split; [done|]. by rewrite Hframe2, Hframe1.
    + rewrite (finalize_result_selected (out +:+ ".temp2") (len b) out _ w2
                 chosen Hne2 Htemp2_out eq_refl Hchosen).
      rewrite (nonempty_above_target target b chosen Hbig Hwithin).
      eexists (inr out), _, (cs1 ++ cs2). split_and!; try done.
      * intros p Hout H1 H2. simpl.
        rewrite lookup_insert_ne, lookup_delete_ne by done.
        by rewrite Hframe2, Hframe1.
      * intros Hgrid. simpl.
        rewrite lookup_insert_ne, lookup_delete_ne by done.
        rewrite Hframe2 by done. by apply Hclean1.
      * intros _. simpl. rewrite lookup_insert_ne by done.
        apply lookup_delete_eq.
      * right. split; [done|]. exists chosen. simpl.
        by rewrite lookup_insert_eq.
  - destruct Hsel1 as (chosen & -> & Hchosen & Hwithin).
    cbn beta. cbn [best_result]. rewrite is_set_some by done. cbn [negb].
    erewrite run_bind; [|reflexivity].
    rewrite (finalize_result_selected (out +:+ ".temp") (len b) out _ w1
               chosen Hne1 Htemp_out eq_refl Hchosen).
    rewrite (nonempty_above_target target b chosen Hbig Hwithin).
    eexists (inr out), _, cs1. split_and!; try done.
    + intros p Hout H1 H2. simpl.
      rewrite lookup_insert_ne, lookup_delete_ne by done. by apply Hframe1.
    + lia.
    + intros _. simpl. rewrite lookup_insert_ne by done.
      apply lookup_delete_eq.
    + intros Hnone. simpl.
      rewrite lookup_insert_ne, lookup_delete_ne by done.
      by rewrite Hframe1.
    + right. split; [done|]. exists chosen. simpl.
      by rewrite lookup_insert_eq.
Qed.

End CompressPdfAlways.

Lemma run_bind_raise {A B} (c : M A) (k : A → M B) (w : world) (e : exn)
    (w1 : world) :
  c w = (inl e, w1) → (x <- c ;; k x) w = (inl e, w1).
Proof. intros Hrun. unfold bind. by rewrite Hrun. Qed.

Section CompressPdfExtras.
Context {codec : ImageCodec} {engine : PdfEngine}.
Variable default_output_path : string → string.

Lemma compress_pdf_missing self input_path output_path w :
  files w !! input_path = None →
  compress_pdf default_output_path self input_path output_path w
  = (inl (Raise "FileNotFoundError"
            ("Input file not found: " +:+ input_path)), w).
Proof.
  intros Hfile. unfold compress_pdf.
  erewrite run_bind; [|reflexivity]. unfold os_path_exists. simpl.
  rewrite bool_decide_eq_false_2; [reflexivity|].
  rewrite Hfile. intros [? ?]. discriminate.
Qed.

Lemma compress_pdf_same_file self input_path output_path w b :
  files w !! input_path = Some b →
  Qle_bool (inject_Z (len b)) (target_size_bytes self) = true →
  input_path = output_path_of default_output_path input_path output_path →
  compress_pdf default_output_path self input_path output_path w
  = (inl (Raise "SameFileError" input_path), w).
Proof.
  intros Hfile Hsmall Hsame. unfold compress_pdf.
  erewrite run_bind;
    [|unfold os_path_exists; rewrite bool_decide_eq_true_2 by eauto;
      reflexivity].
  cbn [negb].
  erewrite run_bind;
    [|unfold get_file_size, os_path_getsize; by rewrite Hfile].
  rewrite Hsmall.
  erewrite run_bind_raise; [reflexivity|].
  unfold shutil_copy2. rewrite Hfile.
  by rewrite bool_decide_eq_true_2.
Qed.


(** X2: [compress_pdf] changes no path other than the output path and its
    two temporary paths, whether it returns or raises. *)
Theorem compress_pdf_frame (self : PDFCompressor) (input_path : string)
    (output_path : option string) (w : world) (p : string) :
  let out := output_path_of default_output_path input_path output_path in
  p ≠ out →
  p ≠ out +:+ ".temp" →
  p ≠ out +:+ ".temp2" →
  files (compress_pdf default_output_path self input_path output_path w).2
    !! p = files w !! p.
Proof.
  intros out Hout Htemp Htemp2.
  destruct (files w !! input_path) as [b|] eqn:Hfile.
  - destruct (Qle_bool (inject_Z (len b)) (target_size_bytes self)) eqn:Hsize.
    + destruct (decide (input_path = out)) as [Hsame|Hdiff].
      * by rewrite (compress_pdf_same_file self input_path output_path w b).
      * rewrite (compress_pdf_trivial_copy default_output_path self input_path
                   output_path w b) by done.
        simpl. by rewrite lookup_insert_ne.
    + destruct (compress_pdf_oversized_run default_output_path self input_path
                  output_path w b Hfile Hsize)
        as (r & w' & cs & -> & Hframe & _).
      simpl. by apply Hframe.
  - by rewrite compress_pdf_missing.
Qed.

(** X3: With the lists of [__init__], a run of [compress_pdf] makes at most
    98 rebuild attempts. *)
Theorem compress_pdf_attempts_bounded (target_size_mb : Q)
    (input_path : string) (output_path : option string) (w : world) :
  ∃ cs,
    calls (compress_pdf default_output_path
             (PDFCompressor_init target_size_mb) input_path output_path w).2
    = calls w ++ cs
    ∧ (length cs ≤ 98)%nat.
Proof.
  set (self := PDFCompressor_init target_size_mb).
  destruct (files w !! input_path) as [b|] eqn:Hfile.
  - destruct (Qle_bool (inject_Z (len b)) (target_size_bytes self)) eqn:Hsize.
    + exists []. rewrite app_nil_r. split; [|simpl; lia].
      destruct (decide (input_path
                        = output_path_of default_output_path input_path
                            output_path)) as [Hsame|Hdiff].
      * by rewrite (compress_pdf_same_file self input_path output_path w b).
      * by rewrite (compress_pdf_trivial_copy default_output_path self
                      input_path output_path w b).
    + destruct (compress_pdf_oversized_run default_output_path self input_path
                  output_path w b Hfile Hsize)
        as (r & w' & cs & -> & _ & Hcalls & Hlen & _).
      exists cs. split; [exact Hcalls|]. simpl in Hlen. lia.
  - exists []. rewrite app_nil_r. rewrite compress_pdf_missing by done.
    split; [done|simpl; lia].
Qed.

(** X4: With the lists of [__init__], after a run on an input above the
    target no file is left at [output + ".temp"], and none at
    [output + ".temp2"] unless one was there before. *)
Theorem compress_pdf_leaves_no_temp (target_size_mb : Q)
    (input_path : string) (output_path : option string) (w : world)
    (b : bytes) :
  let self := PDFCompressor_init target_size_mb in
  let out := output_path_of default_output_path input_path output_path in
  let w' := (compress_pdf default_output_path self input_path output_path w).2
  in
  files w !! input_path = Some b →
  Qle_bool (inject_Z (len b)) (target_size_bytes self) = false →
  files w' !! (out +:+ ".temp") = None
  ∧ (files w !! (out +:+ ".temp2") = None →
     files w' !! (out +:+ ".temp2") = None).
Proof.
  intros self out w' Hfile Hsize. unfold w'.
  destruct (compress_pdf_oversized_run default_output_path self input_path
              output_path w b Hfile Hsize)
    as (r & w1 & cs & -> & _ & _ & _ & Htemp & Htemp2 & _).
  simpl. split; [|exact Htemp2]. apply Htemp. discriminate.
Qed.


End CompressPdfExtras.

Lemma find_none_of_forall {A} (p : A → bool) (l : list A) :
  Forall (λ x, p x = false) l → find p l = None.
Proof.
  induction 1 as [|x l Hx _ IH]; simpl; [reflexivity|]. by rewrite Hx.
Qed.

Section SecondStrategy.
Context {codec : ImageCodec} {engine : PdfEngine}.
Variable default_output_path : string → string.

(** X6: When no candidate of the first strategy is within the target, all 56
    of them are tried and cleaned up, and the second strategy goes
    through DPI [150, 120, 100, 80, 60, 50] and, within a DPI, through
    the scales: the first re-rendering within the target ends both loops
    and becomes the output. *)
Theorem compress_pdf_second_strategy_first_fit (target_size_mb : Q)
    (input_path : string) (output_path : option string) (w : world)
    (b : bytes) (dpi : Z) (scale : Q) :
  let self := PDFCompressor_init target_size_mb in
  let out := output_path_of default_output_path input_path output_path in
  let fit := λ c : Z * Q,
    fits (target_size_bytes self) (rendering_outcome b c.1 c.2) in
  let image_grid := spec_grid (quality_levels self) (scale_factors self) in
  let grid :=
    spec_grid [150; 120; 100; 80; 60; 50]
      [1; 9 # 10; 8 # 10; 7 # 10; 6 # 10; 5 # 10; 4 # 10]%Q in
  files w !! input_path = Some b →
  Qle_bool (inject_Z (len b)) (target_size_bytes self) = false →
  input_path ≠ out +:+ ".temp" →
  input_path ≠ out +:+ ".temp2" →
  Forall (λ c : Z * Q,
            fits (target_size_bytes self) (images_outcome b c.1 c.2) = false)
    image_grid →
  find fit grid = Some (dpi, scale) →
  ∃ chosen before after w',
    grid = before ++ (dpi, scale) :: after
    ∧ Forall (λ c, fit c = false) before
    ∧ rendering_outcome b dpi scale = Saved chosen
    ∧ (inject_Z (len chosen) <= target_size_bytes self)%Q
    ∧ compress_pdf default_output_path self input_path output_path w
      = (inr out, w')
    ∧ files w'
      = <[out := chosen]>
          (delete (out +:+ ".temp2") (delete (out +:+ ".temp") (files w)))
    ∧ calls w'
      = calls w
        ++ map (λ c, CallImages input_path (out +:+ ".temp") c.1 c.2)
             image_grid
        ++ map (λ c, CallRendering input_path (out +:+ ".temp2") c.1 c.2)
             (before ++ [(dpi, scale)]).
Proof.
  intros self out fit image_grid grid Hfile Hbig Hdiff1 Hdiff2 Himages Hfind.
  set (target := target_size_bytes self) in *.
  destruct (upto_first_found fit grid _ Hfind)
    as (before & after & Hgrid & Hbefore & Hfit & Hupto).
  assert (out +:+ ".temp" ≠ "") as Hne1
    by (apply append_nonempty; discriminate).
  assert (out +:+ ".temp2" ≠ "") as Hne2
    by (apply append_nonempty; discriminate).
  assert (∀ tmp, input_path ≠ tmp → ∀ fs : gmap string bytes,
            fs !! input_path = Some b →
            delete tmp fs !! input_path = Some b) as Hkept.
  { intros tmp Htmp fs Hfs. by rewrite lookup_delete_ne. }
  assert (∀ level scale' (fs : gmap string bytes),
            fs !! input_path = Some b →
            images_attempt input_path level scale' fs
            = images_outcome b level scale') as Hstable1.
  { intros level scale' fs Hfs. unfold images_attempt. by rewrite Hfs. }
  assert (∀ level scale' (fs : gmap string bytes),
            fs !! input_path = Some b →
            rendering_attempt input_path level scale' fs
            = rendering_outcome b level scale') as Hstable2.
  { intros level scale' fs Hfs. unfold rendering_attempt. by rewrite Hfs. }
  destruct (search_levels_first_fit target (out +:+ ".temp") Hne1
              (compress_pdf_images input_path (out +:+ ".temp"))
              (images_attempt input_path)
              (CallImages input_path (out +:+ ".temp"))
              (compress_pdf_images_follows input_path (out +:+ ".temp"))
              (λ fs, fs !! input_path = Some b) (Hkept _ Hdiff1)
              (images_outcome b) Hstable1
              (scale_factors self) (quality_levels self)
              {| best_result := None; best_size := Infinity |} w
              eq_refl Hfile)
    as (w1 & Hcase1 & Hcalls1).
  fold image_grid in Hcase1, Hcalls1.
  rewrite (find_none_of_forall _ _ Himages) in Hcase1.
  rewrite (upto_first_none _ _ (find_none_of_forall _ _ Himages)) in Hcalls1.
  destruct Hcase1 as [Hrun1 Hfs1].
  assert (files w1 = delete (out +:+ ".temp") (files w)) as Hfiles1
    by exact Hfs1.
  assert (files w1 !! input_path = Some b) as Hfile1.
  { rewrite Hfiles1. by apply Hkept. }
  destruct (search_levels_first_fit target (out +:+ ".temp2") Hne2
              (compress_pdf_rendering input_path (out +:+ ".temp2"))
              (rendering_attempt input_path)
              (CallRendering input_path (out +:+ ".temp2"))
              (compress_pdf_rendering_follows input_path (out +:+ ".temp2"))
              (λ fs, fs !! input_path = Some b) (Hkept _ Hdiff2)
              (rendering_outcome b) Hstable2
              (scale_factors self) dpi_levels
              {| best_result := None; best_size := Infinity |} w1
              eq_refl Hfile1)
    as (w2 & Hcase2 & Hcalls2).
  change (find (λ c : Z * Q, fits target (rendering_outcome b c.1 c.2))
            (spec_grid dpi_levels (scale_factors self)))
    with (find fit grid) in Hcase2.
  change (upto_first (λ c : Z * Q, fits target (rendering_outcome b c.1 c.2))
            (spec_grid dpi_levels (scale_factors self)))
    with (upto_first fit grid) in Hcalls2.
  rewrite Hfind in Hcase2. cbn [fst snd] in Hcase2.
  destruct Hcase2 as (chosen & Hchosen & Hrun2 & Hfs2).
  assert (Qle_bool (inject_Z (len chosen)) target = true) as Hwithin.
  { unfold fit in Hfit. cbn [fst snd] in Hfit. by rewrite Hchosen in Hfit. }
  exists chosen, before, after.
  exists (set_files (<[out := chosen]>
                       (delete (out +:+ ".temp2") (files w2))) w2).
  split_and!; try done.
  - by apply Qle_bool_iff.
  - rewrite (compress_pdf_oversized default_output_path self input_path
               output_path w b Hfile Hbig).
    cbv zeta. fold out. fold target.
    rewrite (run_bind _ _ _ _ _ Hrun1). cbn [best_result is_set negb].
    rewrite (run_bind _ _ _ _ _ Hrun2).
    rewrite (finalize_result_selected (out +:+ ".temp2") (len b) out _ w2
               chosen); try done.
    + by rewrite (nonempty_above_target target b chosen).
    + apply append_differs. discriminate.
    + by rewrite Hfs2, lookup_insert_eq.
  - simpl. by rewrite Hfs2, delete_insert_eq, Hfiles1.
  - simpl. rewrite Hcalls2, Hcalls1, Hupto. by rewrite <- app_assoc.
Qed.

End SecondStrategy.

(** * Further properties of the rebuilds *)

Lemma Qmult_1_r_eq (q : Q) : (q * 1)%Q = q.
Proof.
  destruct q as [n d]. unfold Qmult. simpl.
  by rewrite Z.mul_1_r, Pos.mul_1_r.
Qed.

Ltac by_error :=
  first [eexists; reflexivity | eexists (Raise "FileNotFoundError" _); reflexivity].

Section RebuildExtras.
Context {codec : ImageCodec} {engine : PdfEngine}.



(** X8: Neither rebuild method raises.  It returns [True] only after
    writing the output path, and [False] after printing one error line;
    no other path changes, and without the input nothing is written. *)
Theorem rebuild_methods_report (input_path output_path : string)
    (quality dpi : Z) (scale : Q) (w : world) :
  (∃ ok w',
     compress_pdf_images input_path output_path quality scale w = (inr ok, w')
     ∧ (∀ p, p ≠ output_path → files w' !! p = files w !! p)
     ∧ (files w !! input_path = None → ok = false ∧ files w' = files w)
     ∧ if ok
       then printed w' = printed w ∧ is_Some (files w' !! output_path)
       else ∃ e, printed w'
                 = printed w ++ ["Error compressing PDF: " +:+ str e])
  ∧ (∃ ok w',
       compress_pdf_rendering input_path output_path dpi scale w
         = (inr ok, w')
       ∧ (∀ p, p ≠ output_path → files w' !! p = files w !! p)
       ∧ (files w !! input_path = None → ok = false ∧ files w' = files w)
       ∧ if ok
         then printed w' = printed w ∧ is_Some (files w' !! output_path)
         else ∃ e, printed w'
                   = printed w
                     ++ ["Error in PDF rendering compression: " +:+ str e]).
Proof.
  split.
  - unfold compress_pdf_images, try_except, bind, log_call, fitz_open,
      new_pdf_save, lift, ret, raise, print, write_file. simpl.
    destruct (files w !! input_path) as [b|] eqn:Hfile; simpl;
      [|eexists _, _; split_and!; [reflexivity|done|done|by_error]].
    destruct (fitz_parse b) as [e|doc]; simpl;
      [eexists _, _; split_and!; [reflexivity|done|done|by_error]|].
    destruct (images_pages (doc_pages doc) 0 quality scale) as [e|new_pdf];
      simpl; [eexists _, _; split_and!; [reflexivity|done|done|by_error]|].
    destruct (pdf_save new_pdf) as [out|e [d|]]; simpl;
      eexists _, _; (split_and!; [reflexivity| |done|]); simpl.
    + intros p Hp. by rewrite lookup_insert_ne.
    + rewrite lookup_insert_eq. eauto.
    + intros p Hp. by rewrite lookup_insert_ne.
    + by_error.
    + done.
    + by_error.
  - unfold compress_pdf_rendering, try_except, bind, log_call, fitz_open,
      new_pdf_save, lift, ret, raise, print, write_file. simpl.
    destruct (files w !! input_path) as [b|] eqn:Hfile; simpl;
      [|eexists _, _; split_and!; [reflexivity|done|done|by_error]].
    destruct (fitz_parse b) as [e|doc]; simpl;
      [eexists _, _; split_and!; [reflexivity|done|done|by_error]|].
    destruct (rendering_pages (doc_pages doc) dpi scale) as [e|new_pdf];
      simpl; [eexists _, _; split_and!; [reflexivity|done|done|by_error]|].
    destruct (pdf_save new_pdf) as [out|e [d|]]; simpl;
      eexists _, _; (split_and!; [reflexivity| |done|]); simpl.
    + intros p Hp. by rewrite lookup_insert_ne.
    + rewrite lookup_insert_eq. eauto.
    + intros p Hp. by rewrite lookup_insert_ne.
    + by_error.
    + done.
    + by_error.
Qed.

Lemma flatten_pages_rendering dpi : ∀ pages,
  flatten_pages pages dpi = rendering_pages pages dpi 1.
Proof.
  induction pages as [|page rest IH]; simpl; [reflexivity|].
  rewrite IH, !Qmult_1_r_eq. reflexivity.
Qed.

(** X9: [flatten_pdf] at [dpi] writes the file that [compress_pdf_rendering]
    writes at the same DPI and scale 1.0 and returns the same flag, but
    prints nothing when it fails. *)
Theorem flatten_pdf_is_rendering_at_full_scale (input_path output_path : string)
    (dpi : Z) (w : world) :
  (flatten_pdf input_path output_path dpi w).1
  = (compress_pdf_rendering input_path output_path dpi 1 w).1
  ∧ files (flatten_pdf input_path output_path dpi w).2
    = files (compress_pdf_rendering input_path output_path dpi 1 w).2
  ∧ printed (flatten_pdf input_path output_path dpi w).2 = printed w.
Proof.
  unfold flatten_pdf, compress_pdf_rendering, try_except, bind, log_call,
    fitz_open, new_pdf_save, lift, ret, raise, print, write_file. simpl.
  destruct (files w !! input_path) as [b|]; simpl; [|done].
  destruct (fitz_parse b) as [e|doc]; simpl; [done|].
  rewrite flatten_pages_rendering.
  destruct (rendering_pages (doc_pages doc) dpi 1) as [e|new_pdf];
    simpl; [done|].
  by destruct (pdf_save new_pdf) as [out|e [d|]].
Qed.

End RebuildExtras.

(** * Further properties of the analyzer *)

Lemma analyze_image_listed doc t xref :
  total_images (analyze_image doc t xref) = total_images t
  ∧ image_sizes (analyze_image doc t xref)
    = image_sizes t ++ option_list (listed_size doc xref).
Proof.
  unfold analyze_image, listed_size.
  destruct (extract_image doc xref) as [e|bi]; simpl;
    [by rewrite app_nil_r|].
  destruct (bi_image bi) as [data|]; simpl; [|by rewrite app_nil_r].
  by destruct (_ && _).
Qed.

Lemma analyze_images_listed doc : ∀ xrefs t,
  total_images (foldl (analyze_image doc) t xrefs) = total_images t
  ∧ image_sizes (foldl (analyze_image doc) t xrefs)
    = image_sizes t ++ omap (listed_size doc) xrefs.
Proof.
  induction xrefs as [|xref rest IH]; intros t; simpl.
  { by rewrite app_nil_r. }
  destruct (IH (analyze_image doc t xref)) as [-> ->].
  destruct (analyze_image_listed doc t xref) as [-> ->].
  split; [done|]. rewrite <- app_assoc. f_equal.
  by destruct (listed_size doc xref).
Qed.

Lemma analyze_pages_listed doc : ∀ pages t,
  total_images (foldl (analyze_page doc) t pages)
  = total_images t + Z.of_nat (length (flat_map get_images pages))
  ∧ image_sizes (foldl (analyze_page doc) t pages)
    = image_sizes t ++ omap (listed_size doc) (flat_map get_images pages).
Proof.
  induction pages as [|page rest IH]; intros t; simpl.
  { rewrite app_nil_r. split; [lia|done]. }
  destruct (IH (analyze_page doc t page)) as [-> ->].
  unfold analyze_page.
  destruct (analyze_images_listed doc (get_images page)
              {| total_images :=
                   total_images t + Z.of_nat (length (get_images page));
                 image_sizes := image_sizes t;
                 total_image_area := total_image_area t;
                 total_page_area :=
                   (total_page_area t + rect_width page * rect_height page)%Q;
                 total_dpi := total_dpi t;
                 dpi_count := dpi_count t |}) as [-> ->].
  simpl. split.
  - rewrite length_app. lia.
  - by rewrite omap_app, app_assoc.
Qed.

Lemma omap_no_longer {A B} (f : A → option B) (l : list A) :
  (length (omap f l) ≤ length l)%nat.
Proof.
  induction l as [|x l IH]; [simpl; lia|].
  change (omap f (x :: l))
    with (match f x with Some y => y :: omap f l | None => omap f l end).
  destruct (f x); simpl; lia.
Qed.

Lemma analyze_document_flags doc file_size :
  analyze_document doc file_size !! "error" = None
  ∧ ∃ ih th v,
      analyze_document doc file_size !! "image_heavy" = Some (VBool ih)
      ∧ analyze_document doc file_size !! "text_heavy" = Some (VBool th)
      ∧ analyze_document doc file_size !! "average_dpi" = Some v
      ∧ (v = VInt 0 ∨ ∃ x, v = VFloat x)
      ∧ (ih = true → th = true → False).
Proof.
  unfold analyze_document.
  destruct (0 <? total_image_area (document_tally doc)).
  - split; [by simplify_map_eq|].
    exists (Qlt_bool (3 # 10) (image_ratio doc)),
      (Qlt_bool (image_ratio doc) (1 # 10)),
      (if 0 <? dpi_count (document_tally doc)
       then VFloat (total_dpi (document_tally doc)
                    / inject_Z (dpi_count (document_tally doc)))%Q
       else VInt 0).
    split_and!; [by simplify_map_eq|by simplify_map_eq|by simplify_map_eq
                |..].
    + destruct (0 <? dpi_count (document_tally doc)); eauto.
    + unfold Qlt_bool. intros Hheavy Hlight.
      apply negb_true_iff in Hheavy, Hlight.
      destruct (Qlt_le_dec (3 # 10) (image_ratio doc)) as [Hlt|Hle].
      * assert (Qle_bool (1 # 10) (image_ratio doc) = true); [|congruence].
        apply Qle_bool_iff. apply Qlt_le_weak.
        eapply Qlt_trans; [|exact Hlt]. reflexivity.
      * apply Qle_bool_iff in Hle. congruence.
  - split; [by simplify_map_eq|].
    exists false, false, (VInt 0).
    split_and!; [by simplify_map_eq|by simplify_map_eq|by simplify_map_eq
                |by left|discriminate].
Qed.

Section AnalyzerExtras.
Context {engine : PdfEngine}.

Lemma analyze_pdf_cases fs file_path :
  (∃ msg, analyze_pdf fs file_path = {[ "error" := VStr msg ]})
  ∨ (∃ doc file_size, analyze_pdf fs file_path = analyze_document doc file_size).
Proof.
  unfold analyze_pdf. destruct (fs !! file_path) as [b|]; simpl.
  - destruct (fitz_parse b) as [e|doc]; simpl; eauto.
  - eauto.
Qed.

(** X10: [analyze_pdf] never reports a document as both image-heavy and
    text-heavy: where [image_heavy] is true, [text_heavy] is false. *)
Theorem analyze_pdf_flags_exclusive (fs : gmap string bytes)
    (file_path : string) :
  analyze_pdf fs file_path !! "image_heavy" = Some (VBool true) →
  analyze_pdf fs file_path !! "text_heavy" = Some (VBool false).
Proof.
  intros Hheavy.
  destruct (analyze_pdf_cases fs file_path)
    as [(msg & Heq)|(doc & size & Heq)]; rewrite Heq in *.
  - rewrite lookup_singleton_ne in Hheavy; done.
  - destruct (analyze_document_flags doc size)
      as (_ & ih & th & v & Hih & Hth & _ & _ & Hexcl).
    rewrite Hih in Hheavy. injection Hheavy as ->. rewrite Hth.
    destruct th; [|done]. by destruct Hexcl.
Qed.

(** X11: [recommend_strategy] accepts whatever [analyze_pdf] returns: it
    never fails on a missing key or a non-numeric DPI, and it answers
    ["basic"] exactly when the analysis failed. *)
Theorem recommend_strategy_of_analysis (fs : gmap string bytes)
    (file_path : string) :
  ∃ label,
    recommend_strategy (analyze_pdf fs file_path) = inr label
    ∧ (label = "basic" ∨ In label spec_labels)
    ∧ (label = "basic" ↔ is_Some (analyze_pdf fs file_path !! "error")).
Proof.
  destruct (analyze_pdf_cases fs file_path)
    as [(msg & ->)|(doc & size & ->)].
  - exists "basic". split_and!; [done|by left|].
    split; [|done]. intros _. rewrite lookup_singleton_eq. eauto.
  - destruct (analyze_document_flags doc size)
      as (Herr & ih & th & v & Hih & Hth & Hv & Hnum & _).
    unfold recommend_strategy, getitem. rewrite Herr, Hih, Hth, Hv. simpl.
    assert (∃ high, py_gt v 200 = inr high) as [high Hhigh].
    { destruct Hnum as [->|[x ->]]; simpl; eauto. }
    rewrite Hhigh. simpl.
    destruct ih, high, th; simpl; eexists; (split_and!; [reflexivity| |]);
      try (right; simpl; tauto);
      (split; [discriminate|intros [? ?]; discriminate]).
Qed.

(** X12: For a file the engine opens, [total_images] counts every image the
    pages list, [image_sizes] holds the byte length of each of them that
    can be extracted, in page order, and [page_count] and [file_size]
    are those of the file. *)
Theorem analyze_pdf_counts (fs : gmap string bytes) (file_path : string)
    (b : bytes) (doc : document) :
  fs !! file_path = Some b →
  fitz_parse b = inr doc →
  analyze_pdf fs file_path !! "page_count"
    = Some (VInt (Z.of_nat (length (doc_pages doc))))
  ∧ analyze_pdf fs file_path !! "file_size" = Some (VInt (len b))
  ∧ analyze_pdf fs file_path !! "total_images"
    = Some (VInt (Z.of_nat (length (listed_images doc))))
  ∧ analyze_pdf fs file_path !! "image_sizes"
    = Some (VList (omap (listed_size doc) (listed_images doc)))
  ∧ (length (omap (listed_size doc) (listed_images doc))
     ≤ length (listed_images doc))%nat.
Proof.
  intros Hfile Hparse.
  rewrite (analyze_pdf_opened fs file_path b doc Hfile Hparse).
  destruct (analyze_pages_listed doc (doc_pages doc) tally_start)
    as [Htotal Hsizes].
  fold (document_tally doc) in Htotal, Hsizes. simpl in Htotal, Hsizes.
  unfold analyze_document, listed_images. rewrite Htotal, Hsizes.
  split_and!.
  1-4: destruct (0 <? total_image_area (document_tally doc));
    by simplify_map_eq.
  apply omap_no_longer.
Qed.

End AnalyzerExtras.

(** * Properties of the image processor *)


Section ImageProcessorFacts.
Context {codec : ImageCodec}.


Lemma first_encoding_skips image target_size before rest :
  Forall (λ quality, ∃ output,
            image_save_jpeg image quality = inr output
            ∧ target_size < len output) before →
  first_encoding image target_size (before ++ rest)
  = first_encoding image target_size rest.
Proof.
  induction 1 as [|quality before (output & Hsave & Hbig) _ IH]; simpl;
    [reflexivity|].
  unfold ebind. rewrite Hsave.
  by replace (len output <=? target_size) with false by lia.
Qed.



(** X14: At full size the qualities are tried from 95 downwards in steps of
    5, never below [min_quality]; the first encoding within
    [target_size] is returned and no lower quality or smaller scale is
    tried. *)
Theorem optimize_image_first_fit (image_data : bytes)
    (target_size min_quality : Z) (opened image : pil_image)
    (before after : list Z) (quality : Z) (output : bytes) :
  Image_open image_data = inr opened →
  (if negb (bool_decide (image_mode opened = "RGB"))
   then image_convert_RGB opened else inr opened) = inr image →
  range_down_5 95 (min_quality - 1) = before ++ quality :: after →
  Forall (λ earlier, ∃ larger,
            image_save_jpeg image earlier = inr larger
            ∧ target_size < len larger) before →
  image_save_jpeg image quality = inr output →
  len output ≤ target_size →
  optimize_image_for_pdf image_data target_size min_quality = output.
Proof.
  intros Hopen Hmode Hrange Hbefore Hsave Hfit.
  unfold optimize_image_for_pdf, optimize_image_body, ebind.
  rewrite Hopen, Hmode, Hrange.
  rewrite (first_encoding_skips image target_size before _ Hbefore).
  simpl. unfold ebind. rewrite Hsave.
  by replace (len output <=? target_size) with true by lia.
Qed.



End ImageProcessorFacts.

Section OptimalDpiFacts.
Variable float_sqrt : Q → Q.


End OptimalDpiFacts.

(** * Properties of the size formatter *)

Lemma append_associative (a b c : string) : (a +:+ b) +:+ c = a +:+ (b +:+ c).
Proof.
  induction a as [|x a IH]; [reflexivity|].
  change (String x ((a +:+ b) +:+ c) = String x (a +:+ (b +:+ c))).
  by rewrite IH.
Qed.

(** A float strictly nearer to [k] than to any other integer rounds to
    [k]. *)
Lemma round_half_even_nearest (x : Q) (k : Z) :
  2 * Z.abs (Qnum x - k * Z.pos (Qden x)) < Z.pos (Qden x) →
  round_half_even x = k.
Proof.
  destruct x as [a b]. simpl. intros Hnear.
  unfold round_half_even, Qlt_bool, Qle_bool, Qminus, Qplus, Qopp, inject_Z,
    Qfloor. simpl.
  rewrite !Pos.mul_1_r, !Z.mul_1_r, !Z.mul_1_l.
  pose proof (Z.div_mod a (Z.pos b) ltac:(lia)) as Hdiv.
  pose proof (Z.mod_pos_bound a (Z.pos b) ltac:(lia)) as Hmod.
  set (f := a / Z.pos b) in *. set (r := a mod Z.pos b) in *.
  assert (a + - f * Z.pos b = r) as -> by lia.
  assert (a - k * Z.pos b = (f - k) * Z.pos b + r) as Hgap by lia.
  rewrite Hgap in Hnear.
  destruct (Z.leb_spec (Z.pos b) (r * 2)) as [Hhigh|Hlow]; simpl.
  - destruct (Z.leb_spec (r * 2) (Z.pos b)) as [Hle|Hgt]; simpl.
    + exfalso. destruct (Z.lt_trichotomy f k) as [Hlt|[Heq|Hlt]]; nia.
    + destruct (Z.lt_trichotomy (f + 1) k) as [Hlt|[Heq|Hlt]]; nia.
  - destruct (Z.lt_trichotomy f k) as [Hlt|[Heq|Hlt]]; nia.
Qed.

(** X17: A whole number of kilobytes or megabytes is shown with [.0], as the
    installation test expects of [format_file_size(1024 * 1024)].  Below
    [2 ^ 53] the quotient is an exact float. *)
Theorem format_file_size_whole_units (n : Z) :
  1 ≤ n < 2 ^ 53 →
  format_file_size (n * (1024 * 1024)) = pretty n +:+ ".0 MB"
  ∧ (n < 1024 → format_file_size (n * 1024) = pretty n +:+ ".0 KB").
Proof.
  intros Hn. split; [|intros Hkb]; unfold format_file_size.
  - replace (n * (1024 * 1024) <? 1024) with false by lia.
    replace (n * (1024 * 1024) <? 1024 * 1024) with false by lia.
    unfold format_1f.
    rewrite (round_half_even_nearest _ (n * 10)) by (simpl; lia).
    rewrite Z.div_mul, Z.mod_mul by lia.
    by rewrite !append_associative.
  - replace (n * 1024 <? 1024) with false by lia.
    replace (n * 1024 <? 1024 * 1024) with true by lia.
    unfold format_1f.
    rewrite (round_half_even_nearest _ (n * 10)) by (simpl; lia).
    rewrite Z.div_mul, Z.mod_mul by lia.
    by rewrite !append_associative.
Qed.

(** X18: Just below one megabyte the size is still shown in kilobytes and
    rounds up to a value the unit was meant to exclude. *)
Theorem format_file_size_below_megabyte (size_bytes : Z) :
  1048525 ≤ size_bytes < 1048576 →
  format_file_size size_bytes = "1024.0 KB".
Proof.
  intros Hrange. unfold format_file_size.
  replace (size_bytes <? 1024) with false by lia.
  replace (size_bytes <? 1024 * 1024) with true by lia.
  unfold format_1f.
  rewrite (round_half_even_nearest _ 10240) by (simpl; lia).
  reflexivity.
Qed.


(** * Instances of the further properties *)

Lemma compress_pdf_frame_witness :
  files (compress_pdf (codec := example_codec)
           (engine := example_engine example_doc) example_default_output
           (PDFCompressor_init (60 # 1048576)) "in.pdf" (Some "out.pdf")
           example_world).2 !! "in.pdf"
  = files example_world !! "in.pdf".
Proof.
  apply (@compress_pdf_frame example_codec (example_engine example_doc)
           example_default_output (PDFCompressor_init (60 # 1048576))
           "in.pdf" (Some "out.pdf") example_world "in.pdf");
    discriminate.
Defined.

Lemma compress_pdf_leaves_no_temp_witness :
  let w' := (compress_pdf (codec := example_codec)
               (engine := example_engine example_doc) example_default_output
               (PDFCompressor_init (60 # 1048576)) "in.pdf" (Some "out.pdf")
               example_world).2 in
  files w' !! "out.pdf.temp" = None
  ∧ (files example_world !! "out.pdf.temp2" = None →
     files w' !! "out.pdf.temp2" = None).
Proof.
  apply (@compress_pdf_leaves_no_temp example_codec
           (example_engine example_doc) example_default_output
           (60 # 1048576) "in.pdf" (Some "out.pdf") example_world
           (replicate 200 x25)).
  - vm_compute. reflexivity.
  - vm_compute. reflexivity.
Defined.


Lemma compress_pdf_second_strategy_first_fit_witness :
  ∃ chosen before after w',
    spec_grid [150; 120; 100; 80; 60; 50]
      [1; 9 # 10; 8 # 10; 7 # 10; 6 # 10; 5 # 10; 4 # 10]%Q
    = before ++ (150, (5 # 10)%Q) :: after
    ∧ Forall (λ c : Z * Q,
                fits (target_size_bytes (PDFCompressor_init (100 # 1048576)))
                  (rendering_outcome (codec := example_codec)
                     (engine := raster_only_engine text_doc)
                     (replicate 200 x25) c.1 c.2) = false) before
    ∧ rendering_outcome (codec := example_codec)
        (engine := raster_only_engine text_doc)
        (replicate 200 x25) 150 (5 # 10) = Saved chosen
    ∧ (inject_Z (len chosen)
       <= target_size_bytes (PDFCompressor_init (100 # 1048576)))%Q
    ∧ compress_pdf (codec := example_codec)
        (engine := raster_only_engine text_doc) example_default_output
        (PDFCompressor_init (100 # 1048576)) "in.pdf" (Some "out.pdf")
        example_world = (inr "out.pdf", w')
    ∧ files w'
      = <["out.pdf" := chosen]>
          (delete "out.pdf.temp2"
             (delete "out.pdf.temp" (files example_world)))
    ∧ calls w'
      = calls example_world
        ++ map (λ c : Z * Q, CallImages "in.pdf" "out.pdf.temp" c.1 c.2)
             (spec_grid
                (quality_levels (PDFCompressor_init (100 # 1048576)))
                (scale_factors (PDFCompressor_init (100 # 1048576))))
        ++ map (λ c : Z * Q, CallRendering "in.pdf" "out.pdf.temp2" c.1 c.2)
             (before ++ [(150, (5 # 10)%Q)]).
Proof.
  apply (@compress_pdf_second_strategy_first_fit example_codec
           (raster_only_engine text_doc) example_default_output
           (100 # 1048576) "in.pdf" (Some "out.pdf") example_world
           (replicate 200 x25) 150 (5 # 10)).
  - vm_compute. reflexivity.
  - vm_compute. reflexivity.
  - discriminate.
  - discriminate.
  - cbn [quality_levels scale_factors PDFCompressor_init spec_grid flat_map
           map app].
    repeat (first [apply Forall_nil_2 | apply Forall_cons_2]).
    all: vm_compute; reflexivity.
  - vm_compute. reflexivity.
Defined.


Lemma analyze_pdf_flags_exclusive_witness :
  analyze_pdf (engine := example_engine example_doc) (files example_world)
    "in.pdf" !! "text_heavy" = Some (VBool false).
Proof.
  apply (@analyze_pdf_flags_exclusive (example_engine example_doc)
           (files example_world) "in.pdf").
  vm_compute. reflexivity.
Defined.

Lemma analyze_pdf_counts_witness :
  let analysis :=
    analyze_pdf (engine := example_engine two_page_doc) (files example_world)
      "in.pdf" in
  analysis !! "page_count"
    = Some (VInt (Z.of_nat (length (doc_pages two_page_doc))))
  ∧ analysis !! "file_size" = Some (VInt (len (replicate 200 x25)))
  ∧ analysis !! "total_images"
    = Some (VInt (Z.of_nat (length (listed_images two_page_doc))))
  ∧ analysis !! "image_sizes"
    = Some (VList (omap (listed_size two_page_doc)
                     (listed_images two_page_doc)))
  ∧ (length (omap (listed_size two_page_doc) (listed_images two_page_doc))
     ≤ length (listed_images two_page_doc))%nat.
Proof.
  apply (@analyze_pdf_counts (example_engine two_page_doc)
           (files example_world) "in.pdf" (replicate 200 x25) two_page_doc).
  - vm_compute. reflexivity.
  - vm_compute. reflexivity.
Defined.

Lemma optimize_image_first_fit_witness :
  optimize_image_for_pdf (codec := graded_codec) (replicate 200 x01) 150 20
  = replicate 150 x00.
Proof.
  apply (@optimize_image_first_fit graded_codec (replicate 200 x01) 150 20
           (replicate 200 x01) (replicate 200 x01) [95; 90; 85; 80]
           [70; 65; 60; 55; 50; 45; 40; 35; 30; 25; 20] 75
           (replicate 150 x00)).
  - vm_compute. reflexivity.
  - vm_compute. reflexivity.
  - vm_compute. reflexivity.
  - repeat (first [apply Forall_nil_2 | apply Forall_cons_2]);
      (eexists; split; [reflexivity|vm_compute; reflexivity]).
  - vm_compute. reflexivity.
  - vm_compute. discriminate.
Defined.


Lemma format_file_size_whole_units_witness :
  format_file_size (1 * (1024 * 1024)) = pretty 1 +:+ ".0 MB"
  ∧ (1 < 1024 → format_file_size (1 * 1024) = pretty 1 +:+ ".0 KB").
Proof. apply (format_file_size_whole_units 1). lia. Defined.

Lemma format_file_size_below_megabyte_witness :
  format_file_size 1048575 = "1024.0 KB".
Proof. apply (format_file_size_below_megabyte 1048575). lia. Defined.
